(** * Law scrapers (Belgium, DRC): a shallow embedding and its properties

    The two scripts [belgium_scraper.py] and [congo_scraper.py] drive a
    Selenium browser through a listing of laws, save the text of every law
    to a file and keep a list of metadata records that is dumped to JSON.

    Python values are embedded as follows:
    - a [str] is the list of its code points;
    - the browser is an abstract deterministic machine (class [Driver]);
    - the file system is a finite map from paths to file contents;
    - statements that can raise are computations in a state and exception
      monad [M]; [try]/[except] is [try_except]. *)

From Stdlib Require Import NArith ZArith Ascii String Lia.
From stdpp Require Import base option list gmap.

Open Scope N_scope.

(** ** Python strings *)

Module PyStr.

Definition str : Type := list N.

(** An ASCII literal. *)
Definition lit (s : string) : str := map N_of_ascii (list_ascii_of_string s).

Definition is_ascii (c : N) : bool := c <? 128.

(** [len(s)] as a Python int. *)
Definition len (s : str) : Z := Z.of_nat (length s).

(** An index of a slice, as CPython's [PySlice_AdjustIndices] clamps it. *)
Definition adjust_index (n i : Z) : Z :=
  if (i <? 0)%Z then Z.max (i + n) 0 else Z.min i n.

(** [s[a:b]] *)
Definition slice (a b : Z) (s : str) : str :=
  let lo := adjust_index (len s) a in
  let hi := adjust_index (len s) b in
  take (Z.to_nat (hi - lo)) (drop (Z.to_nat lo) s).

(** [s[:n]] for a literal [n >= 0] *)
Definition prefix (n : nat) (s : str) : str := slice 0 (Z.of_nat n) s.

(** The part of Unicode that the scripts rely on, outside ASCII: which
    code points are alphanumeric ([\w] of [re] on a [str] pattern is
    [isalnum() or '_']) and what [str.lower] returns on a string that
    is not pure ASCII. *)
Class Unicode := {
  uni_isalnum : N -> bool;
  uni_lower : str -> str
}.

Definition ascii_isalnum (c : N) : bool :=
  ((48 <=? c) && (c <=? 57)) || ((65 <=? c) && (c <=? 90))
  || ((97 <=? c) && (c <=? 122)).

Definition ascii_lower (c : N) : N :=
  if (65 <=? c) && (c <=? 90) then c + 32 else c.

Definition space : N := 32.
Definition hyphen : N := 45.
Definition underscore : N := 95.

Section WithUnicode.
Context {U : Unicode}.

(** [\w] *)
Definition is_word (c : N) : bool :=
  (c =? underscore) || (if is_ascii c then ascii_isalnum c else uni_isalnum c).

(** [re.sub('\W+', ' ', s)]: every maximal run of non-word characters
    becomes one space. [in_run] tells that the previous character
    belonged to a run that has been replaced already. *)
Fixpoint sub_nonword_runs_from (in_run : bool) (s : str) : str :=
  match s with
  | [] => []
  | c :: s' =>
      if is_word c then c :: sub_nonword_runs_from false s'
      else if in_run then sub_nonword_runs_from true s'
      else space :: sub_nonword_runs_from true s'
  end.

Definition sub_nonword_runs (s : str) : str := sub_nonword_runs_from false s.

(** [re.sub(' ', '-', s)] *)
Definition sub_space_hyphen (s : str) : str :=
  map (fun c => if c =? space then hyphen else c) s.

(** [s.lower()] *)
Definition lower (s : str) : str :=
  if forallb is_ascii s then map ascii_lower s else uni_lower s.

(** [re.sub(' ', '-', re.sub('\W+',' ', s)).lower()], the expression
    shared by [filename_maker] and [create_destination_file]. *)
Definition normalize (s : str) : str :=
  lower (sub_space_hyphen (sub_nonword_runs s)).

End WithUnicode.

(** [os.path.join(a, b)] on POSIX, two arguments. *)
Definition slash : N := 47.

Definition os_path_join (a b : str) : str :=
  match b with
  | c :: _ => if c =? slash then b
              else match last a with
                   | None => b
                   | Some d => if d =? slash then a ++ b else a ++ slash :: b
                   end
  | [] => match last a with
          | None => []
          | Some d => if d =? slash then a else a ++ [slash]
          end
  end.

(** The character class [[a-z0-9-]] of the specification, and the
    class that the code really guarantees on ASCII input. *)
Definition in_az09_hyphen (c : N) : bool :=
  ((97 <=? c) && (c <=? 122)) || ((48 <=? c) && (c <=? 57)) || (c =? hyphen).

Definition in_az09_hyphen_underscore (c : N) : bool :=
  in_az09_hyphen c || (c =? underscore).

Definition starts_with (c : N) (s : str) : bool :=
  match s with d :: _ => d =? c | [] => false end.

Definition ends_with (c : N) (s : str) : bool :=
  match last s with Some d => d =? c | None => false end.

(** No two adjacent occurrences of [c]. *)
Fixpoint no_double (c : N) (s : str) : bool :=
  match s with
  | d :: (e :: _) as s' => negb ((d =? c) && (e =? c)) && no_double c s'
  | _ => true
  end.

End PyStr.
Export PyStr.

(** ** Python computations: state, exceptions, loops *)

Module Py.

Inductive exn : Type :=
| NameError
| TypeError
| AttributeError
| IndexError
| OSError
| UnicodeEncodeError
| WebDriverException (code : N).

Inductive result (A : Type) : Type :=
| Ok (a : A)
| Raise (e : exn).
Arguments Ok {A} a.
Arguments Raise {A} e.

Definition is_ok {A} (r : result A) : bool :=
  match r with Ok _ => true | Raise _ => false end.

(** One entry of the [METADATA] list. *)
Record record : Type := {
  title : str;
  link : str;
  download_path : str;
  download_date : str;
  language : str;
  country : str
}.

Inductive file : Type :=
| TextFile (content : str)
| JsonFile (ledger : list record).

(** The Selenium driver and the site behind it: a deterministic machine
    whose replies may be exceptions. *)
Class Driver := {
  world : Type;
  element : Type;
  drv_start : bool -> world -> result unit * world;
  drv_get : str -> world -> result unit * world;
  drv_find_element : str -> world -> result element * world;
  drv_find_elements : str -> world -> result (list element) * world;
  drv_click : element -> world -> result unit * world;
  drv_text : element -> world -> result str * world;
  drv_page_source : world -> result str * world;
  drv_current_url : world -> result str * world;
  drv_switch_frame : option element -> world -> result unit * world;
  drv_switch_default : world -> result unit * world;
  drv_implicitly_wait : N -> world -> result unit * world
}.

(** What the scripts take from the machine they run on. *)
Class Host := {
  here : str;                          (* os.path.dirname(__file__) *)
  today : str;                         (* date.today().strftime('%Y-%m-%d') *)
  openable : str -> bool;              (* open(path, 'w') succeeds *)
  encodable : str -> bool;             (* file.write(text) succeeds *)
  soup_get_text : str -> result str    (* BeautifulSoup(html).get_text() *)
}.

(** What is printed. *)
Inductive message : Type :=
| MsgInitialized
| MsgLoaded (url : str)
| MsgNoAccess (url : str)
| MsgXpathFailed
| MsgAlready (path : str)
| MsgAdded
| MsgWroteMetadata
| MsgLawsOnPage (n : nat)
| MsgFoundLaw (i n : nat) (title : option str)
| MsgTitle (title : str)
| MsgLinkBroken
| MsgTotal (n : nat)
| MsgFinished.

(** Which control a click activates. [DocLink i n] is [all_links[i]]
    with [len(all_links) = n]. *)
Inductive role : Type :=
| SelectCategory (language : str)
| OpenListing
| DocLink (i n : nat)
| BackToMenu.

(** Observable events. A click carries the navigation count at which
    its element was located ([born]) and the count at the click. *)
Inductive event : Type :=
| EvClick (r : role) (born now : nat)
| EvWrote (path : str)
| EvAppend (r : record)
| EvFlush (ledger : list record)
| EvPrint (m : message).

Section WithDriver.
Context {D : Driver}.

(** A WebElement, with the navigation count at which it was located. *)
Record handle : Type := { h_el : element; h_born : nat }.

Record state : Type := {
  browser : world;
  navs : nat;                        (* clicks, loads and frame switches so far *)
  fs : gmap str file;
  METADATA : list record;
  trace : list event
}.

Definition M (A : Type) : Type := state -> result A * state.

Definition ret {A} (a : A) : M A := fun s => (Ok a, s).

Definition bind {A B} (m : M A) (k : A -> M B) : M B :=
  fun s => match m s with
           | (Ok a, s') => k a s'
           | (Raise e, s') => (Raise e, s')
           end.

Definition raise {A} (e : exn) : M A := fun s => (Raise e, s).

(** [try: m  except: h] and [try: m  except E: h] *)
Definition try_except {A} (m : M A) (h : M A) : M A :=
  fun s => match m s with
           | (Ok a, s') => (Ok a, s')
           | (Raise _, s') => h s'
           end.

Definition try_except_index {A} (m : M A) (h : M A) : M A :=
  fun s => match m s with
           | (Raise IndexError, s') => h s'
           | r => r
           end.

End WithDriver.

Declare Scope py_scope.
Delimit Scope py_scope with py.
Notation "x <- m ;; k" := (bind m (fun x => k))
  (at level 100, m at next level, right associativity) : py_scope.
Notation "m ;;; k" := (bind m (fun _ => k))
  (at level 100, right associativity) : py_scope.

End Py.
Export Py.

(** ** Primitive statements *)

Module Prim.
Section WithDriver.
Context {D : Driver} {H : Host}.
Open Scope py_scope.

Definition get_navs : M nat := fun s => (Ok (navs s), s).
Definition get_fs : M (gmap str file) := fun s => (Ok (fs s), s).
Definition get_metadata : M (list record) := fun s => (Ok (METADATA s), s).

Definition with_browser (w : world) (s : state) : state :=
  {| browser := w; navs := navs s; fs := fs s;
     METADATA := METADATA s; trace := trace s |}.
Definition with_navs (n : nat) (s : state) : state :=
  {| browser := browser s; navs := n; fs := fs s;
     METADATA := METADATA s; trace := trace s |}.
Definition with_fs (f : gmap str file) (s : state) : state :=
  {| browser := browser s; navs := navs s; fs := f;
     METADATA := METADATA s; trace := trace s |}.
Definition with_metadata (l : list record) (s : state) : state :=
  {| browser := browser s; navs := navs s; fs := fs s;
     METADATA := l; trace := trace s |}.
Definition with_event (e : event) (s : state) : state :=
  {| browser := browser s; navs := navs s; fs := fs s;
     METADATA := METADATA s; trace := trace s ++ [e] |}.

(** A call into the driver: only the browser changes. *)
Definition call {A} (f : world -> result A * world) : M A :=
  fun s => (fst (f (browser s)), with_browser (snd (f (browser s))) s).

Definition emit (e : event) : M unit := fun s => (Ok tt, with_event e s).

Definition print (m : message) : M unit := emit (EvPrint m).

(** A navigation event: every handle located before it is stale. *)
Definition navigated : M unit := fun s => (Ok tt, with_navs (S (navs s)) s).

Definition set_fs (f : gmap str file) : M unit := fun s => (Ok tt, with_fs f s).

Definition set_metadata (l : list record) : M unit :=
  fun s => (Ok tt, with_metadata l s).

(** [for x in xs: body] *)
Fixpoint for_in {A} (xs : list A) (body : A -> M unit) : M unit :=
  match xs with
  | [] => ret tt
  | x :: xs' => body x ;;; for_in xs' body
  end.

(** [for x in xs: body], where [body] assigns to a local variable that
    the next iteration reads. *)
Fixpoint for_in_var {A V} (xs : list A) (body : A -> V -> M V) (v : V) : M V :=
  match xs with
  | [] => ret v
  | x :: xs' => v' <- body x v ;; for_in_var xs' body v'
  end.

(** [for x in xs: body], where [body] may execute [return]. *)
Inductive flow : Type := Next | Return.

Fixpoint for_in_return {A} (xs : list A) (body : A -> M flow) : M flow :=
  match xs with
  | [] => ret Next
  | x :: xs' => f <- body x ;;
                match f with
                | Next => for_in_return xs' body
                | Return => ret Return
                end
  end.

(** [len(v)] and [v[i]] where [v] is a list or [None]. *)
Definition py_len {A} (v : option (list A)) : M nat :=
  match v with
  | Some l => ret (length l)
  | None => raise TypeError
  end.

Definition py_index {A} (v : option (list A)) (i : nat) : M A :=
  match v with
  | Some l => match l !! i with
              | Some x => ret x
              | None => raise IndexError
              end
  | None => raise TypeError
  end.

(** [e.click()] where [e] is a WebElement or [None]. *)
Definition click (r : role) (e : option handle) : M unit :=
  match e with
  | None => raise AttributeError
  | Some h =>
      now <- get_navs ;;
      emit (EvClick r (h_born h) now) ;;;
      navigated ;;;
      call (drv_click (h_el h))
  end.

(** [e.text] *)
Definition text_of (e : option handle) : M str :=
  match e with
  | None => raise AttributeError
  | Some h => call (drv_text (h_el h))
  end.

(** [with open(path, 'w') as file: file.write(text)]: [open] creates
    or truncates the file, [write] then fills it. *)
Definition write_text (path text : str) : M unit :=
  if openable path then
    files <- get_fs ;;
    set_fs (<[path := TextFile []]> files) ;;;
    if encodable text then
      set_fs (<[path := TextFile text]> files) ;;;
      emit (EvWrote path)
    else raise UnicodeEncodeError
  else raise OSError.

(** [BeautifulSoup(html, features="html.parser").get_text()] *)
Definition soup (text_html : str) : M str :=
  fun s => (soup_get_text text_html, s).

(** [path.exists(p)] *)
Definition path_exists (p : str) : M bool :=
  files <- get_fs ;; ret (bool_decide (is_Some (files !! p))).

End WithDriver.
End Prim.
Export Prim.

(** ** The [ChromeBot] wrapper (the methods are the same in both scripts,
    except [switch_to_frame]) *)

Module ChromeBot.
Section WithDriver.
Context {D : Driver} {H : Host}.
Open Scope py_scope.

Definition init (headless : bool) : M unit :=
  call (drv_start headless) ;;; print MsgInitialized.

Definition navigate_to (url : str) : M unit :=
  try_except
    (navigated ;;; call (drv_get url) ;;; print (MsgLoaded url))
    (print (MsgNoAccess url)).

(** The handle of an element that the driver has just returned. *)
Definition located (e : element) : M handle :=
  now <- get_navs ;; ret {| h_el := e; h_born := now |}.

Definition find_xpath (xpath : str) : M (option (list handle)) :=
  try_except_index
    (es <- call (drv_find_elements xpath) ;;
     now <- get_navs ;;
     ret (Some (map (fun e => {| h_el := e; h_born := now |}) es)))
    (print MsgXpathFailed ;;; ret None).

Definition find_xpath_solo (xpath : str) : M (option handle) :=
  try_except_index
    (e <- call (drv_find_element xpath) ;;
     h <- located e ;;
     ret (Some h))
    (print MsgXpathFailed ;;; ret None).

Definition get_html : M str := call drv_page_source.

Definition get_url : M str := call drv_current_url.

Definition switch_to_default : M unit :=
  navigated ;;; call drv_switch_default.

(** Belgium: [switch_to_frame(self, frame)] takes the element. *)
Definition switch_to_frame (frame : option handle) : M unit :=
  navigated ;;; call (drv_switch_frame (h_el <$> frame)).

Definition wait_sec (time_sec : N) : M unit :=
  call (drv_implicitly_wait time_sec).

End WithDriver.
End ChromeBot.

(** ** belgium_scraper.py *)

Module Belgium.
Import ChromeBot.

Definition START_URL : str := lit "http://www.ejustice.just.fgov.be/cgi/welcome.pl".
Definition DOWNLOAD_PATH : str := lit "./data/belgium/".
Definition METADATA_PATH : str := lit "./data/belgium/metadata.json".
Definition COUNTRY : str := lit "Belgium".

(** [{'french': 'Français', 'dutch': 'Nederlands', 'german': 'Deutsch'}] *)
Definition LANGUAGES : list (str * str) :=
  [ (lit "french", lit "Fran" ++ [231] ++ lit "ais");
    (lit "dutch", lit "Nederlands");
    (lit "german", lit "Deutsch") ].

(** [LANGUAGES.get(k)] *)
Definition LANGUAGES_get (k : str) : option str :=
  match list_find (fun kv : list N * list N => fst kv = k) LANGUAGES with
  | Some (_, kv) => Some (snd kv)
  | None => None
  end.

(** ['...{}...'.format(v)] of a string or [None] *)
Definition format_value (v : option str) : str :=
  match v with Some s => s | None => lit "None" end.

(** The loop of [scrape_belgium_laws] iterates over [list(languages)],
    a name that the module never binds (it binds [LANGUAGES]). The
    binding of that global name is an argument of the embedding:
    [None] when it is unbound, as in the file, and the list it
    iterates over otherwise. *)
Definition languages_of_module : option (list str) := None.

Definition button_xpath (language : str) : str :=
  lit "//input[@type='Submit' and @value='" ++ format_value (LANGUAGES_get language)
  ++ lit "']".
Definition frame2_xpath : str := lit "/html/frameset/frame[2]".
Definition frame3_xpath : str := lit "/html/frameset/frame[3]".
Definition links_xpath : str := lit "//input[@type='submit' and @name='numac']".
Definition title_xpath : str := lit "/html/body/h3/center/u".
Definition back_xpath : str := lit "/html/body/table/tbody/tr/td[4]/form/input[5]".
Definition file_source_url : str := lit "www.ejustice.just.fgov.be/cgi/article.pl".
Definition txt : str := lit "txt".

Section WithUnicode.
Context {U : Unicode}.

Definition filename_maker (law_name : str) : str :=
  prefix 250 (normalize law_name).

Definition generate_file_name (law_name type language : str) : str :=
  let title := filename_maker law_name in
  DOWNLOAD_PATH ++ language ++ lit "/" ++ type ++ lit "/" ++ title ++ lit "." ++ type.

End WithUnicode.

Section WithDriver.
Context {U : Unicode} {D : Driver} {H : Host}.
Open Scope py_scope.

Definition destination_path (title type language : str) : str :=
  os_path_join here (generate_file_name title type language).

Definition create_destination_file (title type language : str) : M (option str) :=
  let html_destination_file := destination_path title type language in
  e <- path_exists html_destination_file ;;
  if e then print (MsgAlready html_destination_file) ;;; ret None
  else ret (Some html_destination_file).

Definition append_to_metadata (law_name pdf_link filename language : str) : M unit :=
  ledger <- get_metadata ;;
  let r := {| title := law_name; link := pdf_link; download_path := filename;
              download_date := today; language := language; country := COUNTRY |} in
  set_metadata (ledger ++ [r]) ;;;
  emit (EvAppend r) ;;;
  print MsgAdded.

Definition write_metadata_json : M unit :=
  let metadata_path := os_path_join here METADATA_PATH in
  if openable metadata_path then
    files <- get_fs ;;
    ledger <- get_metadata ;;
    set_fs (<[metadata_path := JsonFile ledger]> files) ;;;
    emit (EvFlush ledger) ;;;
    print MsgWroteMetadata
  else raise OSError.

(** The body of [for i in range(0, len(all_links))], in the three
    parts that its comments delimit. Lines 180-194: click on the law,
    read its title and its text. *)
Definition open_law (i : nat) (all_links : option (list handle)) : M (str * str) :=
  (* Click on law, access page *)
  link_i <- py_index all_links i ;;
  n <- py_len all_links ;;
  click (DocLink i n) (Some link_i) ;;;
  (* Switch to frame containing heading/title *)
  frame2 <- find_xpath_solo frame2_xpath ;;
  switch_to_frame frame2 ;;;
  (* Get title *)
  heading <- find_xpath_solo title_xpath ;;
  law_title <- text_of heading ;;
  print (MsgFoundLaw (i + 1) n (Some law_title)) ;;;
  (* Get html text *)
  text_html <- get_html ;;
  text_soup <- soup text_html ;;
  ret (law_title, text_soup).

(** Lines 195-201: create the file and the metadata entry. *)
Definition store_law (language law_title text_soup : str) : M unit :=
  destination_file <- create_destination_file law_title txt language ;;
  match destination_file with
  | Some destination_file =>
      write_text destination_file text_soup ;;;
      append_to_metadata law_title file_source_url destination_file language
  | None => ret tt
  end.

(** Lines 203-219: exit the frame, go back to the listing, recollect
    all links. The result is the new value of [all_links]. *)
Definition back_to_listing : M (option (list handle)) :=
  switch_to_default ;;;
  frame3 <- find_xpath_solo frame3_xpath ;;
  switch_to_frame frame3 ;;;
  (* Click button to go back to menu *)
  button_back <- find_xpath_solo back_xpath ;;
  click BackToMenu button_back ;;;
  (* Switch to frame *)
  switch_to_default ;;;
  frame1 <- find_xpath_solo frame2_xpath ;;
  switch_to_frame frame1 ;;;
  wait_sec 1 ;;;
  (* Recollect all links *)
  find_xpath links_xpath.

Definition visit_law (language : str) (i : nat)
    (all_links : option (list handle)) : M (option (list handle)) :=
  law <- open_law i all_links ;;
  store_law language (fst law) (snd law) ;;;
  back_to_listing.

(** The body of [for language in list(languages)]. *)
Definition scrape_language (language : str) : M flow :=
  laws_list_link <- find_xpath_solo (button_xpath language) ;;
  match laws_list_link with
  | None => ret Return                     (* Stop if a problem occured *)
  | Some _ =>
      click (SelectCategory language) laws_list_link ;;;
      frame1 <- find_xpath_solo frame2_xpath ;;
      switch_to_frame frame1 ;;;
      all_links <- find_xpath links_xpath ;;
      n <- py_len all_links ;;
      print (MsgLawsOnPage n) ;;;
      for_in_var (seq 0 n) (visit_law language) all_links ;;;
      (* Write all metadata to JSON *)
      write_metadata_json ;;;
      ret Next
  end.

Definition scrape_belgium_laws (languages : option (list str)) (headless : bool) : M unit :=
  init headless ;;;
  navigate_to START_URL ;;;
  wait_sec 5 ;;;
  match languages with
  | None => raise NameError
  | Some languages =>
      f <- for_in_return languages scrape_language ;;
      match f with
      | Return => ret tt
      | Next => print MsgFinished
      end
  end.

End WithDriver.
End Belgium.

(** ** congo_scraper.py *)

Module Congo.
Import ChromeBot.

Definition START_URL : str := lit "http://www.leganet.cd/JO.htm".
Definition DOWNLOAD_PATH : str := lit "./data/DRC/".
Definition METADATA_PATH : str := lit "./data/DRC/metadata.json".
Definition COUNTRY : str := lit "DRC".

(** ["//img[@alt='LÃ©gislation']"]: the two code points after [L] are
    U+00C3 and U+00A9 in the file. *)
Definition listing_xpath : str :=
  lit "//img[@alt='L" ++ [195; 169] ++ lit "gislation']".
Definition links_xpath : str := lit "//a[@target='_blank']".
Definition txt : str := lit "txt".
Definition french : str := lit "french".

Section WithUnicode.
Context {U : Unicode}.

(** The identifier of a law: [title + law_text] in
    [create_destination_file]. *)
Definition identifier (law_name law_text : str) : str :=
  let title := prefix 200 (normalize law_name) in
  let law_text := prefix 50 (normalize law_text) in
  title ++ law_text.

Definition file_path (law_name law_text type language : str) : str :=
  DOWNLOAD_PATH ++ language ++ lit "/" ++ type ++ lit "/"
  ++ identifier law_name law_text ++ lit "." ++ type.

(** [law_title = text_soup[300:550]] and
    [content_extract = text_soup[-300:-250]] *)
Definition law_title_of (text_soup : str) : str := slice 300 550 text_soup.
Definition content_extract_of (text_soup : str) : str := slice (-300) (-250) text_soup.

End WithUnicode.

Section WithDriver.
Context {U : Unicode} {D : Driver} {H : Host}.
Open Scope py_scope.

Definition destination_path (law_name law_text type language : str) : str :=
  os_path_join here (file_path law_name law_text type language).

Definition create_destination_file (law_name law_text type language : str)
    : M (option str) :=
  print (MsgTitle (prefix 200 (normalize law_name))) ;;;
  let destination_file := destination_path law_name law_text type language in
  e <- path_exists destination_file ;;
  if e then print (MsgAlready destination_file) ;;; ret None
  else ret (Some destination_file).

Definition append_to_metadata (law_name file_link filename language : str) : M unit :=
  ledger <- get_metadata ;;
  let r := {| title := law_name; link := file_link; download_path := filename;
              download_date := today; language := language; country := COUNTRY |} in
  set_metadata (ledger ++ [r]) ;;;
  emit (EvAppend r) ;;;
  print MsgAdded.

Definition write_metadata_json : M unit :=
  let metadata_path := os_path_join here METADATA_PATH in
  if openable metadata_path then
    files <- get_fs ;;
    ledger <- get_metadata ;;
    set_fs (<[metadata_path := JsonFile ledger]> files) ;;;
    emit (EvFlush ledger) ;;;
    print MsgWroteMetadata
  else raise OSError.

(** The [try] block of the loop, in two parts. Lines 161-177: click
    on the law, read the url and the text of the page. *)
Definition open_law (all_links : option (list handle)) (i : nat) : M (str * str) :=
  (* Click on law, access page *)
  link_i <- py_index all_links i ;;
  n <- py_len all_links ;;
  click (DocLink i n) (Some link_i) ;;;
  print (MsgFoundLaw (i + 1) n None) ;;;
  file_source_url <- get_url ;;
  text_html <- get_html ;;
  text_soup <- soup text_html ;;
  ret (file_source_url, text_soup).

(** Lines 178-189: derive the title, create the file and the metadata
    entry. *)
Definition store_law (language file_source_url text_soup : str) : M unit :=
  let law_title := law_title_of text_soup in
  let content_extract := content_extract_of text_soup in
  destination_file <- create_destination_file law_title content_extract txt language ;;
  match destination_file with
  | Some destination_file =>
      write_text destination_file text_soup ;;;
      append_to_metadata law_title file_source_url destination_file language
  | None => ret tt
  end.

Definition visit_law (language : str) (all_links : option (list handle))
    (i : nat) : M unit :=
  page <- open_law all_links i ;;
  store_law language (fst page) (snd page).

(** The body of [for i in range(len(all_links))]. *)
Definition try_visit_law (language : str) (all_links : option (list handle))
    (i : nat) : M unit :=
  try_except (visit_law language all_links i) (print MsgLinkBroken).

Definition scrape_drc_laws (headless : bool) : M unit :=
  let language := french in
  init headless ;;;
  navigate_to START_URL ;;;
  laws_list_link <- find_xpath_solo listing_xpath ;;
  match laws_list_link with
  | None => ret tt                         (* Stop if a problem occured *)
  | Some _ =>
      click OpenListing laws_list_link ;;;
      all_links <- find_xpath links_xpath ;;
      laws_ttl <- py_len all_links ;;
      n <- py_len all_links ;;
      for_in (seq 0 n) (try_visit_law language all_links) ;;;
      write_metadata_json ;;;
      print (MsgTotal laws_ttl) ;;;
      print MsgFinished
  end.

End WithDriver.
End Congo.

(** ** Test doubles: a Unicode table, a host and scripted sites *)

Module Mock.

(** The Unicode tables up to U+00FF; the code points above are
    taken to be neither alphanumeric nor cased. *)
Definition latin1_isalnum (c : N) : bool :=
  (c =? 170) || (c =? 178) || (c =? 179) || (c =? 181) || (c =? 185) || (c =? 186)
  || ((188 <=? c) && (c <=? 190)) || ((192 <=? c) && (c <=? 214))
  || ((216 <=? c) && (c <=? 246)) || ((248 <=? c) && (c <=? 255)).

Definition latin1_lower_char (c : N) : N :=
  if is_ascii c then ascii_lower c
  else if ((192 <=? c) && (c <=? 214)) || ((216 <=? c) && (c <=? 222)) then c + 32
  else c.

#[export] Instance latin1 : Unicode :=
  {| uni_isalnum := latin1_isalnum; uni_lower := map latin1_lower_char |}.

#[export] Instance host : Host :=
  {| here := lit "/home/scrapers";
     today := lit "2021-12-13";
     openable := fun _ => true;
     encodable := fun _ => true;
     soup_get_text := Ok |}.

(** A scripted site. *)
Record site : Type := {
  site_docs : list (str * str);        (* title and page source of every law *)
  site_listed : nat -> nat;            (* links on the listing after [v] visits *)
  site_not_found : list str;           (* xpaths that [find_element] fails on *)
  site_broken : list nat               (* laws whose page cannot be read *)
}.

Inductive control : Type := Link (i : nat) | Other.

Record page : Type := { shown : option nat; visits : nat }.

Definition shown_doc (st : site) (w : page) : result (str * str) :=
  match shown w with
  | Some i => if bool_decide (i ∈ site_broken st) then Raise (WebDriverException 1)
              else Ok (default ([], []) (site_docs st !! i))
  | None => Ok ([], [])
  end.

Definition driver (st : site) : Driver :=
  {| world := page;
     element := control;
     drv_start := fun _ w => (Ok tt, w);
     drv_get := fun _ w => (Ok tt, w);
     drv_find_element := fun xp w =>
       if bool_decide (xp ∈ site_not_found st) then (Raise IndexError, w)
       else (Ok Other, w);
     drv_find_elements := fun _ w => (Ok (map Link (seq 0 (site_listed st (visits w)))), w);
     drv_click := fun e w =>
       match e with
       | Link i => (Ok tt, {| shown := Some i; visits := S (visits w) |})
       | Other => (Ok tt, w)
       end;
     drv_text := fun _ w =>
       (match shown_doc st w with Ok d => Ok (fst d) | Raise e => Raise e end, w);
     drv_page_source := fun w =>
       (match shown_doc st w with Ok d => Ok (snd d) | Raise e => Raise e end, w);
     drv_current_url := fun w => (Ok (lit "http://www.leganet.cd/JO.htm"), w);
     drv_switch_frame := fun _ w => (Ok tt, w);
     drv_switch_default := fun w => (Ok tt, w);
     drv_implicitly_wait := fun _ w => (Ok tt, w) |}.

(** The state of a fresh process on an empty output directory. *)
Definition boot (st : site) : @state (driver st) :=
  {| browser := {| shown := None; visits := 0 |} : @world (driver st);
     navs := 0; fs := ∅; METADATA := []; trace := [] |}.

Definition two_laws : list (str * str) :=
  [ (lit "Loi A", lit "Texte de la loi A"); (lit "Loi B", lit "Texte de la loi B") ].

(** Two laws, everything works. *)
Definition site_two : site :=
  {| site_docs := two_laws; site_listed := fun _ => 2%nat;
     site_not_found := []; site_broken := [] |}.

(** Two laws, the page of the first cannot be read. *)
Definition site_first_broken : site :=
  {| site_docs := two_laws; site_listed := fun _ => 2%nat;
     site_not_found := []; site_broken := [0%nat] |}.

(** Two laws listed at first, one after the first visit. *)
Definition site_shrinking : site :=
  {| site_docs := two_laws; site_listed := fun v => (2 - v)%nat;
     site_not_found := []; site_broken := [] |}.

(** The button of the second language is not found. *)
Definition site_no_dutch : site :=
  {| site_docs := two_laws; site_listed := fun _ => 2%nat;
     site_not_found := [Belgium.button_xpath (lit "dutch")]; site_broken := [] |}.

(** Three laws with texts of 600 characters, the page of the second
    cannot be read. *)
Definition three_long_laws : list (str * str) :=
  [ (lit "Loi A", replicate 600 97); (lit "Loi B", replicate 600 98);
    (lit "Loi C", replicate 600 99) ].

Definition site_second_broken : site :=
  {| site_docs := three_long_laws; site_listed := fun _ => 3%nat;
     site_not_found := []; site_broken := [1%nat] |}.

(** The button of the first language is not found. *)
Definition site_no_french : site :=
  {| site_docs := two_laws; site_listed := fun _ => 2%nat;
     site_not_found := [Belgium.button_xpath (lit "french")]; site_broken := [] |}.

Definition three_languages : list str := [lit "french"; lit "dutch"; lit "german"].

(** The state of a fresh process on an output directory that has the
    files [files]. *)
Definition boot_on (st : site) (files : gmap str file) : @state (driver st) :=
  {| browser := {| shown := None; visits := 0 |} : @world (driver st);
     navs := 0; fs := files; METADATA := []; trace := [] |}.

(** An output directory that already has the file of the first law of
    the Belgian listing, with an old content. *)
Definition old_download : str :=
  Belgium.destination_path (U := latin1) (H := host) (lit "Loi A") Belgium.txt (lit "french").

Definition old_files : gmap str file := {[ old_download := TextFile (lit "old") ]}.

(** The clicks of a trace. *)
Definition clicks (tr : list event) : list (role * nat * nat) :=
  omap (fun e => match e with EvClick r b n => Some (r, b, n) | _ => None end) tr.

End Mock.


(** ** Predicates used in the statements *)

Module Props.

Section WithUnicode.
Context {U : Unicode}.

(** An ASCII character that is a word character or [d]. *)
Definition ascii_word_or (d c : N) : Prop :=
  is_ascii c = true ∧ (is_word c = true ∨ c = d).

End WithUnicode.

Section WithDriver.
Context {D : Driver}.

(** A trace in which every event passes a check against the events
    before it. *)
Definition events_ok (chk : list event -> event -> Prop) (tr : list event) : Prop :=
  ∀ i e, tr !! i = Some e → chk (take i tr) e.

(** C1: an element is clicked at the navigation count at which it was
    located. *)
Definition chk_fresh (_ : list event) (e : event) : Prop :=
  match e with EvClick _ born now => born = now | _ => True end.

(** C7: a link is clicked at an index of the list it is taken from. *)
Definition chk_bound (_ : list event) (e : event) : Prop :=
  match e with EvClick (DocLink i n) _ _ => (i < n)%nat | _ => True end.

Definition chk_click (hist : list event) (e : event) : Prop :=
  chk_fresh hist e ∧ chk_bound hist e.

(** C9: a record is appended, and a ledger is flushed, after the files of
    its paths were written. *)
Definition chk_ledger (hist : list event) (e : event) : Prop :=
  match e with
  | EvAppend r => EvWrote (download_path r) ∈ hist
  | EvFlush l => ∀ r, r ∈ l → EvWrote (download_path r) ∈ hist
  | _ => True
  end.

Definition ledger_inv (s : state) : Prop :=
  events_ok chk_ledger (trace s)
  ∧ (∀ r, r ∈ METADATA s → EvWrote (download_path r) ∈ trace s)
  ∧ (∀ p, EvWrote p ∈ trace s → is_Some (fs s !! p)).

(** C5: category selections and ledger flushes, in order. *)
Inductive milestone : Type := Selected (language : str) | Flushed.

Definition milestone_of (e : event) : option milestone :=
  match e with
  | EvClick (SelectCategory l) _ _ => Some (Selected l)
  | EvFlush _ => Some Flushed
  | _ => None
  end.

Definition milestones (tr : list event) : list milestone := omap milestone_of tr.

(** The state after [append_to_metadata] has added [r]. *)
Definition appended (r : record) (s : state) : state :=
  with_event (EvPrint MsgAdded)
    (with_event (EvAppend r) (with_metadata (METADATA s ++ [r]) s)).

(** The state after [write_metadata_json] has written to [mp]. *)
Definition flushed (mp : str) (s : state) : state :=
  with_event (EvPrint MsgWroteMetadata)
    (with_event (EvFlush (METADATA s))
       (with_fs (<[mp := JsonFile (METADATA s)]> (fs s)) s)).

(** What the file and ledger part of a visit does with the text of a
    law, its destination [p] and its record [r]. *)
Definition store_outcome {H : Host} (p : str) (r : record) (text : str) (s : state)
    : result unit * state :=
  if bool_decide (is_Some (fs s !! p)) then
    (Ok tt, with_event (EvPrint (MsgAlready p)) s)
  else if openable p then
    if encodable text then
      (Ok tt, appended r (with_event (EvWrote p) (with_fs (<[p := TextFile text]> (fs s)) s)))
    else (Raise UnicodeEncodeError, with_fs (<[p := TextFile []]> (fs s)) s)
  else (Raise OSError, s).

(** The milestones of a run that completes the categories [langs]: every
    selection is followed by a flush. *)
Definition category_milestones (langs : list str) : list milestone :=
  flat_map (fun l => [Selected l; Flushed]) langs.

(** The effect of a statement stays within [R]. *)
Definition steps (R : state -> state -> Prop) {A} (m : M A) : Prop :=
  ∀ s, R s (snd (m s)).

(** Relations that every statement of the wrapper respects. *)
Class Frame (R : state -> state -> Prop) : Prop := {
  fr_refl s : R s s;
  fr_trans s1 s2 s3 : R s1 s2 → R s2 s3 → R s1 s3;
  fr_browser s w : R s (with_browser w s);
  fr_navs s n : R s (with_navs n s);
  fr_print s m : R s (with_event (EvPrint m) s)
}.

(** Relations that a click of role [r] respects. *)
Definition click_ok (R : state -> state -> Prop) (r : role) : Prop :=
  ∀ s born, R s (with_event (EvClick r born (navs s)) s).

(** The files and the ledger are left alone. *)
Definition R_store (s s' : state) : Prop :=
  fs s' = fs s ∧ METADATA s' = METADATA s.

(** Files are never removed. *)
Definition R_files (s s' : state) : Prop :=
  ∀ p, is_Some (fs s !! p) → is_Some (fs s' !! p).

(** The trace only grows. *)
Definition R_trace (s s' : state) : Prop := trace s `prefix_of` trace s'.

(** No selection and no flush. *)
Definition R_quiet (s s' : state) : Prop :=
  milestones (trace s') = milestones (trace s).

(** The invariant of C9 is kept. *)
Definition R_ledger (s s' : state) : Prop := ledger_inv s → ledger_inv s'.

(** The ledger only grows at its end. *)
Definition R_meta (s s' : state) : Prop := METADATA s `prefix_of` METADATA s'.

(** Every file but the one at [mp] keeps its content. *)
Definition R_keep (mp : str) (s s' : state) : Prop :=
  ∀ p f, p ≠ mp → fs s !! p = Some f → fs s' !! p = Some f.

(** The paths of the ledger are distinct and on disk. *)
Definition unique_inv (s : state) : Prop :=
  NoDup (map download_path (METADATA s))
  ∧ ∀ r, r ∈ METADATA s → is_Some (fs s !! download_path r).

Definition R_unique (s s' : state) : Prop := unique_inv s → unique_inv s'.

(** Every record of the ledger satisfies [ok]. *)
Definition R_fields (ok : record -> Prop) (s s' : state) : Prop :=
  Forall ok (METADATA s) → Forall ok (METADATA s').

(** The checks of C1 and C7 are kept. *)
Definition R_clicks (s s' : state) : Prop :=
  events_ok chk_click (trace s) → events_ok chk_click (trace s').

(** The statement leaves an event of [E] in the trace, however it ends. *)
Definition emits (E : event -> Prop) {A} (m : M A) : Prop :=
  ∀ s, ∃ ev, E ev ∧ ev ∈ trace (snd (m s)).

(** A click on link [i] of a list of [n] links. *)
Definition click_on_link (i n : nat) (ev : event) : Prop :=
  ∃ born now, ev = EvClick (DocLink i n) born now.

(** Hoare triples over an invariant [I]: from a state that satisfies [I]
    and [P], the statement ends in a state that satisfies [I], and [Q] if
    it returns. *)
Definition hoare (I P : state -> Prop) {A} (m : M A) (Q : A -> state -> Prop) : Prop :=
  ∀ s, I s → P s →
    I (snd (m s)) ∧ (∀ a, fst (m s) = Ok a → Q a (snd (m s))).

Definition clicks_inv (s : state) : Prop := events_ok chk_click (trace s).

(** A role whose index, if any, is within its list. *)
Definition role_ok (r : role) : Prop :=
  match r with DocLink i n => (i < n)%nat | _ => True end.

(** The handle, or every handle of the list, was located at the current
    navigation count. *)
Definition current (o : option handle) (s : state) : Prop :=
  ∀ h, o = Some h → h_born h = navs s.

Definition all_current (v : option (list handle)) (s : state) : Prop :=
  ∀ l, v = Some l → Forall (fun h => h_born h = navs s) l.

End WithDriver.

Section Records.
Context {U : Unicode} {H : Host}.

(** The records that the two scripts append. *)
Definition belgium_record (law_title lang : str) : record :=
  {| title := law_title; link := Belgium.file_source_url;
     download_path := Belgium.destination_path law_title Belgium.txt lang;
     download_date := today; language := lang; country := Belgium.COUNTRY |}.

Definition congo_record (lang url text_soup : str) : record :=
  {| title := Congo.law_title_of text_soup; link := url;
     download_path := Congo.destination_path (Congo.law_title_of text_soup)
                        (Congo.content_extract_of text_soup) Congo.txt lang;
     download_date := today; language := lang; country := Congo.COUNTRY |}.

End Records.

Section RecordShapes.
Context {U : Unicode} {H : Host}.

(** What every record of the Belgian script looks like: the link is the
    constant of the script and the path is the one of its title and
    language. *)
Definition belgium_shape (r : record) : Prop :=
  r = belgium_record (title r) (language r).

(** What every record of the DRC script looks like. *)
Definition congo_shape (r : record) : Prop :=
  language r = Congo.french ∧ country r = Congo.COUNTRY ∧ download_date r = today.

End RecordShapes.

Section Crawl.
Context {U : Unicode} {D : Driver} {H : Host}.
Open Scope py_scope.

(** The milestones of the trace of a state. *)
Definition ms (s : state) : list milestone := milestones (trace s).

(** What follows the selection of a category in [scrape_belgium_laws]
    (lines 170-222): the crawl, then the flush. *)
Definition crawl_and_flush (lang : str) : M flow :=
  frame1 <- ChromeBot.find_xpath_solo Belgium.frame2_xpath ;;
  ChromeBot.switch_to_frame frame1 ;;;
  all_links <- ChromeBot.find_xpath Belgium.links_xpath ;;
  n <- py_len all_links ;;
  print (MsgLawsOnPage n) ;;;
  for_in_var (seq 0 n) (Belgium.visit_law lang) all_links ;;;
  Belgium.write_metadata_json ;;;
  ret Next.

End Crawl.

Section LinkClicks.
Context {D : Driver}.

(** The clicks on links of a trace, in order: the index, the length of
    the list that was held, the navigation count at which the handle was
    located and the count at the click. *)
Definition link_clicks (tr : list event) : list (nat * nat * nat * nat) :=
  omap (fun e => match e with
                 | EvClick (DocLink i n) born now => Some (i, n, born, now)
                 | _ => None
                 end) tr.

(** The indices of these clicks. *)
Definition link_indices (tr : list event) : list nat :=
  map (fun c => fst (fst (fst c))) (link_clicks tr).

(** No click on a link. *)
Definition R_nolink (s s' : state) : Prop :=
  link_clicks (trace s') = link_clicks (trace s).

(** A statement that neither navigates nor clicks on a link. *)
Definition still {A} (m : M A) : Prop :=
  ∀ s, navs (snd (m s)) = navs s ∧ R_nolink s (snd (m s)).

(** A statement that navigates once, for the click on a link that it
    records as [c now], where [now] is the count at its start. *)
Definition clicks_once (c : nat -> nat * nat * nat * nat) {A} (m : M A) : Prop :=
  ∀ s, navs (snd (m s)) = S (navs s)
       ∧ link_clicks (trace (snd (m s))) = link_clicks (trace s) ++ [c (navs s)].

(** The clicks of one pass over [n] links that were all located at
    count [born], the first one clicked at count [now]: link [i] is
    clicked at count [now + i]. *)
Definition one_pass (n born now : nat) : list (nat * nat * nat * nat) :=
  map (fun i => (i, n, born, now + i)%nat) (seq 0 n).

End LinkClicks.

Section Reruns.
Context {U : Unicode} {D : Driver} {H : Host}.

(** Two states with the same browser: the site answers both alike. *)
Definition same_browser (a b : state) : Prop :=
  browser a = browser b ∧ navs a = navs b.

(** A statement whose result and whose effect on the browser depend on
    the browser only. *)
Definition oblivious {A} (m : M A) : Prop :=
  ∀ a b, same_browser a b →
    fst (m a) = fst (m b) ∧ same_browser (snd (m a)) (snd (m b)).

(** The ledgers that the trace has dumped, in order. *)
Definition dumps (tr : list event) : list (list record) :=
  omap (fun e => match e with EvFlush l => Some l | _ => None end) tr.

(** No dump. *)
Definition R_nodump (s s' : state) : Prop := dumps (trace s') = dumps (trace s).

(** The files [f] after [n] dumps of the ledger [l] to [mp]. *)
Definition redump (mp : str) (l : list record) (n : nat) (f : gmap str file)
    : gmap str file :=
  match n with O => f | S _ => <[mp := JsonFile l]> f end.

(** [m] in a second run.  State [a] is a state of the first run and
    [b] the state of the second run at the same place: the browser is
    the same and [b] has every file that the rest of the first run
    leaves.  Then the second run goes the way of the first, appends
    nothing, dumps its own ledger only, and changes no file except by
    these dumps to [mp].  With [strict] the first run is taken to have
    raised nothing. *)
Definition again (strict : bool) (mp : str) {A} (m : M A) : Prop :=
  ∀ a b, same_browser a b → R_files (snd (m a)) b →
    (strict = true → is_ok (fst (m a)) = true) →
    fst (m b) = fst (m a) ∧ same_browser (snd (m a)) (snd (m b))
    ∧ METADATA (snd (m b)) = METADATA b
    ∧ ∃ n, dumps (trace (snd (m b))) = dumps (trace b) ++ replicate n (METADATA b)
           ∧ fs (snd (m b)) = redump mp (METADATA b) n (fs b).

End Reruns.

(** The title of the specification's example,
    ["Loi du 10/12/2021 — Article 5!"]. *)
Definition spec_example_title : str :=
  lit "Loi du 10/12/2021 " ++ [8212] ++ lit " Article 5!".

(** A body text of 600 letters. *)
Definition text_600 : str := replicate 600 97.

End Props.
Export Props.
(** * Properties *)

(** ** Strings *)

Section StrFacts.
Context {U : Unicode}.

Lemma prefix_take (n : nat) (s : str) : prefix n s = take n s.
Proof.
  unfold prefix, slice, adjust_index, len.
  change (0 <? 0)%Z with false. cbv iota.
  destruct (Z.ltb_spec (Z.of_nat n) 0); [lia|].
  rewrite (Z.min_l 0) by lia. rewrite Z.sub_0_r. change (Z.to_nat 0) with 0%nat.
  rewrite drop_0.
  destruct (decide (n ≤ length s)%nat) as [Hle|Hgt].
  - rewrite Z.min_l by lia. by rewrite Nat2Z.id.
  - rewrite Z.min_r by lia. rewrite Nat2Z.id.
    rewrite !take_ge by lia. done.
Qed.

Lemma length_prefix (n : nat) (s : str) : (length (prefix n s) ≤ n)%nat.
Proof. rewrite prefix_take, length_take. lia. Qed.

Lemma slice_empty_from (a b : Z) (s : str) :
  (0 ≤ a)%Z → (len s ≤ a)%Z → slice a b s = [].
Proof.
  intros Ha Hlen. unfold slice, adjust_index.
  destruct (a <? 0)%Z eqn:Ea; [apply Z.ltb_lt in Ea; lia|].
  rewrite (Z.min_r a) by lia.
  rewrite drop_ge; [by rewrite take_nil|]. unfold len in *. lia.
Qed.

Lemma slice_empty_to (a b : Z) (s : str) :
  (a < 0)%Z → (b < 0)%Z → (len s + b ≤ 0)%Z → slice a b s = [].
Proof.
  intros Ha Hb Hlen. unfold slice, adjust_index.
  destruct (a <? 0)%Z eqn:Ea; [|apply Z.ltb_ge in Ea; lia].
  destruct (b <? 0)%Z eqn:Eb; [|apply Z.ltb_ge in Eb; lia].
  rewrite (Z.max_r (b + len s)) by lia.
  replace (Z.to_nat (0 - _)) with 0%nat by lia. done.
Qed.

Lemma is_word_not_space (c : N) : is_word c = true → c ≠ space.
Proof. intros Hw ->. vm_compute in Hw. done. Qed.

Lemma is_word_not_hyphen (c : N) : is_word c = true → c ≠ hyphen.
Proof. intros Hw ->. vm_compute in Hw. done. Qed.

Lemma sub_nonword_runs_from_chars (b : bool) (s : str) :
  Forall (fun c => is_ascii c = true) s →
  Forall (ascii_word_or space) (sub_nonword_runs_from b s).
Proof.
  intros Hs. revert b. induction Hs as [|c s Hc Hs IH]; intros b; simpl; [done|].
  destruct (is_word c) eqn:Hw.
  - constructor; [split; auto | apply IH].
  - destruct b; [apply IH|]. constructor; [|apply IH]. split; [done | by right].
Qed.

Lemma no_double_cons (c d e : N) (s : str) :
  no_double c (d :: e :: s) = negb ((d =? c) && (e =? c)) && no_double c (e :: s).
Proof. reflexivity. Qed.

Lemma sub_nonword_runs_from_no_double (b : bool) (s : str) :
  no_double space (sub_nonword_runs_from b s) = true
  ∧ (b = true → starts_with space (sub_nonword_runs_from b s) = false).
Proof.
  revert b. induction s as [|c s IH]; intros b; simpl; [done|].
  destruct (is_word c) eqn:Hw.
  - destruct (IH false) as [IH1 _]. split.
    + destruct (sub_nonword_runs_from false s) eqn:E; [done|].
      rewrite no_double_cons, IH1, andb_true_r.
      apply is_word_not_space, N.eqb_neq in Hw. by rewrite Hw.
    + intros _. by apply is_word_not_space, N.eqb_neq in Hw.
  - destruct (IH true) as [IH1 IH2]. destruct b; [by split; auto|].
    split; [|done].
    destruct (sub_nonword_runs_from true s) eqn:E; [done|].
    rewrite no_double_cons, IH1, andb_true_r. specialize (IH2 eq_refl). simpl in IH2.
    by rewrite IH2, andb_false_r.
Qed.

Lemma sub_space_hyphen_chars (s : str) :
  Forall (ascii_word_or space) s → Forall (ascii_word_or hyphen) (sub_space_hyphen s).
Proof.
  unfold sub_space_hyphen. intros Hs. apply Forall_map.
  eapply Forall_impl; [exact Hs|]. intros c [Ha [Hw| ->]]; simpl.
  - pose proof (is_word_not_space _ Hw) as Hn%N.eqb_neq. rewrite Hn. split; auto.
  - split; [done | by right].
Qed.

Lemma no_double_map (P : N → Prop) (f : N → N) (c c' : N) (s : str) :
  (∀ x, P x → (f x =? c') = (x =? c)) → Forall P s →
  no_double c' (map f s) = no_double c s.
Proof.
  intros Hf. induction s as [|d s IH]; intros HP; [done|].
  destruct s as [|e s]; [done|].
  inversion HP as [|? ? Hd HP']; subst. inversion HP' as [|? ? He _]; subst.
  specialize (IH HP'). cbn [map] in IH |- *.
  by rewrite !no_double_cons, !Hf, IH.
Qed.

Lemma sub_space_hyphen_no_double (s : str) :
  Forall (ascii_word_or space) s → no_double space s = true →
  no_double hyphen (sub_space_hyphen s) = true.
Proof.
  intros Hs Hnd. unfold sub_space_hyphen.
  rewrite (no_double_map (ascii_word_or space) _ space); [done| |done].
  intros x [_ [Hw| ->]]; [|done].
  pose proof (is_word_not_space _ Hw) as Hn%N.eqb_neq. rewrite Hn.
  by pose proof (is_word_not_hyphen _ Hw) as Hh%N.eqb_neq.
Qed.

Lemma ascii_lower_class (c : N) :
  ascii_word_or hyphen c → in_az09_hyphen_underscore (ascii_lower c) = true.
Proof.
  unfold ascii_word_or, is_word, in_az09_hyphen_underscore, in_az09_hyphen,
    ascii_lower, ascii_isalnum, is_ascii, underscore, hyphen.
  intros [Ha Hw]. rewrite Ha in Hw.
  rewrite !orb_true_iff, !andb_true_iff, N.eqb_eq, !N.leb_le in Hw.
  destruct (N.leb_spec 65 c), (N.leb_spec c 90); simpl;
    rewrite !orb_true_iff, !andb_true_iff, !N.eqb_eq, !N.leb_le; lia.
Qed.

Lemma ascii_lower_hyphen (c : N) : (ascii_lower c =? hyphen) = (c =? hyphen).
Proof.
  unfold ascii_lower, hyphen.
  destruct (N.leb_spec 65 c), (N.leb_spec c 90); simpl; try done.
  destruct (N.eqb_spec (c + 32) 45), (N.eqb_spec c 45); try done; lia.
Qed.

Lemma no_double_map_lower (s : str) :
  no_double hyphen (map ascii_lower s) = no_double hyphen s.
Proof.
  apply (no_double_map (fun _ => True)); [|by apply Forall_true].
  intros x _. apply ascii_lower_hyphen.
Qed.

Lemma no_double_take (c : N) (n : nat) (s : str) :
  no_double c s = true → no_double c (take n s) = true.
Proof.
  revert n. induction s as [|d [|e s] IH]; intros n Hnd.
  - by destruct n.
  - by destruct n as [|[|n]].
  - destruct n as [|[|n]]; [done..|].
    rewrite no_double_cons in Hnd.
    apply andb_true_iff in Hnd as [Hnd1 Hnd2].
    specialize (IH (S n) Hnd2). simpl in IH |- *. destruct n; simpl in *.
    * by rewrite Hnd1.
    * by rewrite Hnd1.
Qed.

Lemma ascii_chars_ascii (d : N) (s : str) :
  Forall (ascii_word_or d) s → forallb is_ascii s = true.
Proof.
  intros Hs. apply forallb_forall. intros c Hc%list_elem_of_In.
  rewrite Forall_forall in Hs. by destruct (Hs c Hc).
Qed.

(** [normalize] on an ASCII string. *)
Lemma normalize_ascii (s : str) :
  Forall (fun c => is_ascii c = true) s →
  normalize s = map ascii_lower (sub_space_hyphen (sub_nonword_runs s))
  ∧ Forall (ascii_word_or hyphen) (sub_space_hyphen (sub_nonword_runs s))
  ∧ no_double hyphen (normalize s) = true.
Proof.
  intros Hs.
  pose proof (sub_nonword_runs_from_chars false s Hs) as H1.
  pose proof (sub_space_hyphen_chars _ H1) as H2.
  assert (normalize s = map ascii_lower (sub_space_hyphen (sub_nonword_runs s))) as E.
  { unfold normalize, lower. by rewrite (ascii_chars_ascii hyphen). }
  split; [done|]. split; [done|].
  rewrite E, no_double_map_lower. apply sub_space_hyphen_no_double; [done|].
  apply sub_nonword_runs_from_no_double.
Qed.

Lemma starts_with_take (c : N) (n : nat) (s : str) :
  starts_with c (take (S n) s) = starts_with c s.
Proof. by destruct s. Qed.

Lemma normalize_ascii_head (c : N) (s : str) :
  Forall (fun c => is_ascii c = true) (c :: s) →
  starts_with hyphen (normalize (c :: s)) = negb (is_word c).
Proof.
  intros Hs. destruct (normalize_ascii _ Hs) as (E & _ & _). rewrite E.
  unfold sub_nonword_runs. simpl. destruct (is_word c) eqn:Hw; simpl.
  - pose proof (is_word_not_space _ Hw) as Hn%N.eqb_neq. rewrite Hn.
    rewrite ascii_lower_hyphen. by apply N.eqb_neq, is_word_not_hyphen.
  - done.
Qed.

Lemma sub_nonword_runs_from_last (b : bool) (s : str) (c : N) :
  last s = Some c →
  last (sub_nonword_runs_from b s)
  = if is_word c then Some c
    else if b && forallb (fun x => negb (is_word x)) s then None else Some space.
Proof.
  revert b. induction s as [|d [|e s] IH]; intros b Hl; [done| |].
  - injection Hl as ->. simpl. by destruct (is_word c), b.
  - change (last (d :: e :: s)) with (last (e :: s)) in Hl.
    change (sub_nonword_runs_from b (d :: e :: s))
      with (if is_word d then d :: sub_nonword_runs_from false (e :: s)
            else if b then sub_nonword_runs_from true (e :: s)
            else space :: sub_nonword_runs_from true (e :: s)).
    change (forallb (fun x => negb (is_word x)) (d :: e :: s))
      with (negb (is_word d) && forallb (fun x => negb (is_word x)) (e :: s)).
    destruct (is_word d); simpl negb; rewrite ?andb_false_r, ?andb_true_l.
    + rewrite last_cons, (IH false Hl). simpl. by destruct (is_word c).
    + destruct b; [by rewrite (IH true Hl)|].
      rewrite last_cons, (IH true Hl).
      destruct (is_word c); [reflexivity|]. rewrite andb_true_l.
      destruct (forallb (fun x => negb (is_word x)) (e :: s)); reflexivity.
Qed.

Lemma sub_nonword_runs_from_length (b : bool) (s : str) :
  (length (sub_nonword_runs_from b s) ≤ length s)%nat.
Proof.
  revert b. induction s as [|d s IH]; intros b; simpl; [done|].
  destruct (is_word d); simpl; [specialize (IH false); lia|].
  destruct b; simpl; specialize (IH true); lia.
Qed.

Lemma normalize_ascii_length (s : str) :
  Forall (fun c => is_ascii c = true) s → (length (normalize s) ≤ length s)%nat.
Proof.
  intros Hs. destruct (normalize_ascii _ Hs) as (E & _ & _). rewrite E.
  unfold sub_space_hyphen, sub_nonword_runs. rewrite !length_map.
  apply sub_nonword_runs_from_length.
Qed.

Lemma last_map {A B} (f : A -> B) (l : list A) :
  last (map f l) = option_map f (last l).
Proof.
  induction l as [|x [|y l] IH]; [done..|].
  change (last (map f (x :: y :: l))) with (last (map f (y :: l))).
  by rewrite IH.
Qed.

Lemma normalize_ascii_last (s : str) :
  Forall (fun c => is_ascii c = true) s →
  ends_with hyphen (normalize s)
  = match last s with Some c => negb (is_word c) | None => false end.
Proof.
  intros Hs. destruct (normalize_ascii _ Hs) as (E & _ & _). rewrite E.
  unfold ends_with, sub_space_hyphen, sub_nonword_runs.
  rewrite !last_map.
  destruct (last s) as [c|] eqn:Hl.
  - rewrite (sub_nonword_runs_from_last false s c Hl). simpl.
    destruct (is_word c) eqn:Hw; simpl.
    + pose proof (is_word_not_space _ Hw) as Hn%N.eqb_neq. rewrite Hn.
      rewrite ascii_lower_hyphen. by apply N.eqb_neq, is_word_not_hyphen.
    + done.
  - apply last_None in Hl as ->. done.
Qed.

End StrFacts.

(** ** Statements *)

Section Steps.
Context {D : Driver} {H : Host}.
Open Scope py_scope.

Lemma bind_run {A B} (m : M A) (k : A -> M B) (s : state) :
  bind m k s = match m s with
               | (Ok a, s') => k a s'
               | (Raise e, s') => (Raise e, s')
               end.
Proof. reflexivity. Qed.

Section WithFrame.
Context (R : state -> state -> Prop) {FR : Frame R}.

Lemma steps_ret {A} (a : A) : steps R (ret a).
Proof. intros s. apply fr_refl. Qed.

Lemma steps_raise {A} (e : exn) : steps R (raise (A := A) e).
Proof. intros s. apply fr_refl. Qed.

Lemma steps_bind {A B} (m : M A) (k : A -> M B) :
  steps R m → (∀ a, steps R (k a)) → steps R (bind m k).
Proof.
  intros Hm Hk s. specialize (Hm s). rewrite bind_run.
  destruct (m s) as [[a|e] s1]; simpl in *; [|done].
  eapply fr_trans; [exact Hm | apply Hk].
Qed.

Lemma steps_after_bind {A B} (m : M A) (k : A -> M B) (s : state) :
  (∀ x, steps R (k x)) → R (snd (m s)) (snd (bind m k s)).
Proof.
  intros Hk. rewrite bind_run. destruct (m s) as [[x|e] s1]; simpl.
  - apply Hk.
  - apply fr_refl.
Qed.

Lemma steps_try_except {A} (m h : M A) :
  steps R m → steps R h → steps R (try_except m h).
Proof.
  intros Hm Hh s. specialize (Hm s). unfold try_except.
  destruct (m s) as [[a|e] s1]; simpl in *; [done|].
  eapply fr_trans; [exact Hm | apply Hh].
Qed.

Lemma steps_try_except_index {A} (m h : M A) :
  steps R m → steps R h → steps R (try_except_index m h).
Proof.
  intros Hm Hh s. specialize (Hm s). unfold try_except_index.
  destruct (m s) as [[a|[]] s1]; simpl in *; try done.
  eapply fr_trans; [exact Hm | apply Hh].
Qed.

Lemma steps_for_in {A} (xs : list A) (body : A -> M unit) :
  (∀ x, steps R (body x)) → steps R (for_in xs body).
Proof.
  intros Hb. induction xs as [|x xs IH]; simpl.
  - apply steps_ret.
  - apply steps_bind; [apply Hb | by intros _].
Qed.

Lemma steps_for_in_var {A V} (xs : list A) (body : A -> V -> M V) (v : V) :
  (∀ x v, steps R (body x v)) → steps R (for_in_var xs body v).
Proof.
  intros Hb. revert v. induction xs as [|x xs IH]; intros v; simpl.
  - apply steps_ret.
  - apply steps_bind; [apply Hb | apply IH].
Qed.

Lemma steps_for_in_return {A} (xs : list A) (body : A -> M flow) :
  (∀ x, steps R (body x)) → steps R (for_in_return xs body).
Proof.
  intros Hb. induction xs as [|x xs IH]; simpl.
  - apply steps_ret.
  - apply steps_bind; [apply Hb |]. intros [|]; [apply IH | apply steps_ret].
Qed.

Lemma steps_call {A} (f : world -> result A * world) : steps R (call f).
Proof. intros s. apply fr_browser. Qed.

Lemma steps_print (m : message) : steps R (print m).
Proof. intros s. apply fr_print. Qed.

Lemma steps_navigated : steps R navigated.
Proof. intros s. apply fr_navs. Qed.

Lemma steps_get_navs : steps R get_navs.
Proof. intros s. apply fr_refl. Qed.

Lemma steps_get_fs : steps R get_fs.
Proof. intros s. apply fr_refl. Qed.

Lemma steps_get_metadata : steps R get_metadata.
Proof. intros s. apply fr_refl. Qed.

Lemma steps_soup (html : str) : steps R (soup html).
Proof. intros s. apply fr_refl. Qed.

Lemma steps_py_len {A} (v : option (list A)) : steps R (py_len v).
Proof. destruct v; [apply steps_ret | apply steps_raise]. Qed.

Lemma steps_py_index {A} (v : option (list A)) (i : nat) : steps R (py_index v i).
Proof.
  destruct v as [l|]; simpl; [|apply steps_raise].
  destruct (l !! i); [apply steps_ret | apply steps_raise].
Qed.

Lemma steps_text_of (e : option handle) : steps R (text_of e).
Proof. destruct e; [apply steps_call | apply steps_raise]. Qed.

Lemma steps_click (r : role) (e : option handle) :
  click_ok R r → steps R (click r e).
Proof.
  intros Hc. destruct e as [h|]; simpl; [|apply steps_raise].
  intros s. cbv [bind get_navs emit navigated call]. simpl.
  eapply fr_trans; [apply (Hc s (h_born h))|].
  eapply fr_trans; [apply fr_navs|]. apply fr_browser.
Qed.

End WithFrame.
End Steps.

(** Decomposition of a statement into the statements above. *)
Ltac steps_step :=
  lazymatch goal with
  | |- Frame _ => tc_solve
  | |- steps _ (ret _) => apply steps_ret
  | |- steps _ (raise _) => apply steps_raise
  | |- steps _ (bind _ _) => apply steps_bind; [..|intros ?]
  | |- steps _ (try_except _ _) => apply steps_try_except
  | |- steps _ (try_except_index _ _) => apply steps_try_except_index
  | |- steps _ (for_in _ _) => apply steps_for_in; [..|intros ?]
  | |- steps _ (for_in_var _ _ _) => apply steps_for_in_var; [..|intros ? ?]
  | |- steps _ (for_in_return _ _) => apply steps_for_in_return; [..|intros ?]
  | |- steps _ (call _) => apply steps_call
  | |- steps _ (print _) => apply steps_print
  | |- steps _ navigated => apply steps_navigated
  | |- steps _ get_navs => apply steps_get_navs
  | |- steps _ get_fs => apply steps_get_fs
  | |- steps _ get_metadata => apply steps_get_metadata
  | |- steps _ (soup _) => apply steps_soup
  | |- steps _ (py_len _) => apply steps_py_len
  | |- steps _ (py_index _ _) => apply steps_py_index
  | |- steps _ (text_of _) => apply steps_text_of
  | |- steps _ (match ?x with _ => _ end) => destruct x
  | |- steps _ _ => solve [auto with steps typeclass_instances]
  end.

Ltac steps_tac := repeat steps_step.

Create HintDb steps.

Section BotSteps.
Context {D : Driver} {H : Host}.
Context (R : state -> state -> Prop) {FR : Frame R}.
Import ChromeBot.

Lemma steps_init (headless : bool) : steps R (init headless).
Proof. unfold init. steps_tac. Qed.

Lemma steps_navigate_to (url : str) : steps R (navigate_to url).
Proof. unfold navigate_to. steps_tac. Qed.

Lemma steps_find_xpath (xpath : str) : steps R (find_xpath xpath).
Proof. unfold find_xpath. steps_tac. Qed.

Lemma steps_find_xpath_solo (xpath : str) : steps R (find_xpath_solo xpath).
Proof. unfold find_xpath_solo, located. steps_tac. Qed.

Lemma steps_get_html : steps R get_html.
Proof. unfold get_html. steps_tac. Qed.

Lemma steps_get_url : steps R get_url.
Proof. unfold get_url. steps_tac. Qed.

Lemma steps_switch_to_default : steps R switch_to_default.
Proof. unfold switch_to_default. steps_tac. Qed.

Lemma steps_switch_to_frame (frame : option handle) : steps R (switch_to_frame frame).
Proof. unfold switch_to_frame. steps_tac. Qed.

Lemma steps_wait_sec (t : N) : steps R (wait_sec t).
Proof. unfold wait_sec. steps_tac. Qed.

End BotSteps.

#[export] Hint Resolve steps_init steps_navigate_to steps_find_xpath steps_find_xpath_solo
  steps_get_html steps_get_url steps_switch_to_default steps_switch_to_frame
  steps_wait_sec steps_click : steps.

(** Traces *)

Section Traces.
Context {D : Driver}.

Lemma events_ok_nil (chk : list event -> event -> Prop) : events_ok chk [].
Proof. intros i e Hi. by rewrite lookup_nil in Hi. Qed.

Lemma events_ok_snoc (chk : list event -> event -> Prop) (tr : list event) (e : event) :
  events_ok chk tr → chk tr e → events_ok chk (tr ++ [e]).
Proof.
  intros Htr He i e' Hi.
  destruct (decide (i < length tr)%nat) as [Hlt|Hge].
  - rewrite lookup_app_l in Hi by done.
    rewrite take_app_le by lia. by apply Htr.
  - rewrite lookup_app_r in Hi by lia.
    destruct (i - length tr)%nat eqn:E; [|done].
    simpl in Hi. injection Hi as <-.
    assert (i = length tr) as -> by lia.
    rewrite take_app_length. done.
Qed.

Lemma events_ok_snoc_inv (chk : list event -> event -> Prop) (tr : list event) (e : event) :
  events_ok chk (tr ++ [e]) → events_ok chk tr ∧ chk tr e.
Proof.
  intros Hok. split.
  - intros i e' Hi. pose proof (lookup_lt_Some _ _ _ Hi) as Hlt.
    specialize (Hok i e'). rewrite lookup_app_l in Hok by done.
    rewrite take_app_le in Hok by lia. by apply Hok.
  - specialize (Hok (length tr) e).
    rewrite take_app_length in Hok. apply Hok.
    rewrite lookup_app_r by lia. by rewrite Nat.sub_diag.
Qed.

Lemma milestones_snoc (tr : list event) (e : event) :
  milestones (tr ++ [e]) = milestones tr ++ from_option (fun m => [m]) [] (milestone_of e).
Proof.
  unfold milestones. rewrite omap_app. simpl. by destruct (milestone_of e).
Qed.

End Traces.

(** Frames *)

Section Frames.
Context {D : Driver}.

#[export] Instance R_store_frame : Frame R_store.
Proof. split; unfold R_store; try done. intros ??? [-> ->] [-> ->]. done. Qed.

#[export] Instance R_files_frame : Frame R_files.
Proof. split; unfold R_files; simpl; auto. Qed.

#[export] Instance R_trace_frame : Frame R_trace.
Proof.
  split; unfold R_trace; simpl; try done.
  - intros ???. apply transitivity.
  - intros. by apply prefix_app_r.
Qed.

#[export] Instance R_quiet_frame : Frame R_quiet.
Proof.
  split; unfold R_quiet; simpl; try done.
  - intros ??? -> ->. done.
  - intros. rewrite milestones_snoc. simpl. by rewrite app_nil_r.
Qed.

#[export] Instance R_clicks_frame : Frame R_clicks.
Proof.
  split; unfold R_clicks; simpl; auto.
  intros s m Hs. by apply events_ok_snoc.
Qed.

#[export] Instance R_ledger_frame : Frame R_ledger.
Proof.
  split; unfold R_ledger, ledger_inv; simpl; auto.
  intros s m (H1 & H2 & H3). split; [|split].
  - by apply events_ok_snoc.
  - intros r Hr. apply elem_of_app. left. by apply H2.
  - intros p Hp. apply elem_of_app in Hp as [Hp|Hp]; [by apply H3|].
    apply list_elem_of_singleton in Hp. done.
Qed.

Lemma click_ok_store (r : role) : click_ok R_store r.
Proof. done. Qed.

Lemma click_ok_files (r : role) : click_ok R_files r.
Proof. intros s b p. done. Qed.

Lemma click_ok_trace (r : role) : click_ok R_trace r.
Proof. intros s b. by apply prefix_app_r. Qed.

Lemma click_ok_ledger (r : role) : click_ok R_ledger r.
Proof.
  intros s b (H1 & H2 & H3). split; [|split]; simpl.
  - by apply events_ok_snoc.
  - intros r' Hr. apply elem_of_app. left. by apply H2.
  - intros p Hp. apply elem_of_app in Hp as [Hp|Hp]; [by apply H3|].
    apply list_elem_of_singleton in Hp. done.
Qed.

Lemma click_ok_quiet_link (i n : nat) : click_ok R_quiet (DocLink i n).
Proof. intros s b. unfold R_quiet. simpl. rewrite milestones_snoc. apply app_nil_r. Qed.

Lemma click_ok_quiet_back : click_ok R_quiet BackToMenu.
Proof. intros s b. unfold R_quiet. simpl. rewrite milestones_snoc. apply app_nil_r. Qed.

End Frames.

#[export] Hint Resolve click_ok_store click_ok_files click_ok_trace click_ok_ledger
  click_ok_quiet_link click_ok_quiet_back : steps.

(** Files and ledger *)

Section StoreSteps.
Context {U : Unicode} {D : Driver} {H : Host}.

Lemma write_text_run (path text : str) (s : state) :
  write_text path text s =
    if openable path then
      if encodable text then
        (Ok tt, with_event (EvWrote path) (with_fs (<[path := TextFile text]> (fs s)) s))
      else (Raise UnicodeEncodeError, with_fs (<[path := TextFile []]> (fs s)) s)
    else (Raise OSError, s).
Proof.
  unfold write_text. destruct (openable path); [|done].
  destruct (encodable text); reflexivity.
Qed.

Lemma path_exists_run (p : str) (s : state) :
  path_exists p s = (Ok (bool_decide (is_Some (fs s !! p))), s).
Proof. reflexivity. Qed.

Lemma steps_write_text_files (path text : str) : steps R_files (write_text path text).
Proof.
  intros s. rewrite write_text_run. unfold R_files.
  destruct (openable path), (encodable text); simpl; try done.
  all: intros p Hp; destruct (decide (path = p)) as [->|Hne];
    [rewrite lookup_insert_eq; eauto | by rewrite lookup_insert_ne].
Qed.

Lemma steps_write_text_trace (path text : str) : steps R_trace (write_text path text).
Proof.
  intros s. rewrite write_text_run. unfold R_trace.
  destruct (openable path), (encodable text); simpl; try done.
  by apply prefix_app_r.
Qed.

Lemma steps_write_text_quiet (path text : str) : steps R_quiet (write_text path text).
Proof.
  intros s. rewrite write_text_run. unfold R_quiet.
  destruct (openable path), (encodable text); simpl; try done.
  rewrite milestones_snoc. apply app_nil_r.
Qed.

Lemma steps_write_text_clicks (path text : str) : steps R_clicks (write_text path text).
Proof.
  intros s. rewrite write_text_run. unfold R_clicks.
  destruct (openable path), (encodable text); simpl; try done.
  intros Hs. by apply events_ok_snoc.
Qed.

Lemma ledger_inv_insert (s : state) (p : str) (f : file) :
  ledger_inv s → ledger_inv (with_fs (<[p := f]> (fs s)) s).
Proof.
  intros (H1 & H2 & H3). split; [done|]. split; [done|]. simpl.
  intros q Hq. destruct (decide (p = q)) as [->|Hne];
    [rewrite lookup_insert_eq; eauto | rewrite lookup_insert_ne; auto].
Qed.

Lemma ledger_inv_wrote (s : state) (p : str) :
  ledger_inv s → is_Some (fs s !! p) → ledger_inv (with_event (EvWrote p) s).
Proof.
  intros (H1 & H2 & H3) Hp. split; [|split]; simpl.
  - by apply events_ok_snoc.
  - intros r Hr. apply elem_of_app. left. by apply H2.
  - intros q Hq. apply elem_of_app in Hq as [Hq|Hq]; [by apply H3|].
    apply list_elem_of_singleton in Hq. by injection Hq as ->.
Qed.

Lemma steps_write_text_ledger (path text : str) : steps R_ledger (write_text path text).
Proof.
  intros s. rewrite write_text_run. unfold R_ledger.
  destruct (openable path), (encodable text); simpl; try done.
  - intros Hs. apply ledger_inv_wrote; [by apply ledger_inv_insert|].
    simpl. rewrite lookup_insert_eq. eauto.
  - apply ledger_inv_insert.
Qed.

(** After a successful write the path is on disk and in the trace. *)
Lemma write_text_ok (path text : str) (s s' : state) :
  write_text path text s = (Ok tt, s') →
  EvWrote path ∈ trace s' ∧ fs s' !! path = Some (TextFile text)
  ∧ METADATA s' = METADATA s.
Proof.
  rewrite write_text_run.
  destruct (openable path), (encodable text); intros [= <-]; simpl.
  split; [set_solver|]. by rewrite lookup_insert_eq.
Qed.

Lemma belgium_store_law_run (lang law_title text : str) (s : state) :
  Belgium.store_law lang law_title text s
  = store_outcome (Belgium.destination_path law_title Belgium.txt lang)
      (belgium_record law_title lang) text s.
Proof.
  unfold Belgium.store_law, Belgium.create_destination_file, store_outcome.
  rewrite !bind_run, path_exists_run.
  destruct (bool_decide _); [reflexivity|].
  cbv beta iota. unfold ret at 1. cbv beta iota.
  rewrite bind_run, write_text_run.
  destruct (openable _); [|done]. destruct (encodable text); reflexivity.
Qed.

Lemma congo_store_law_run (lang url text : str) (s : state) :
  Congo.store_law lang url text s
  = store_outcome (Congo.destination_path (Congo.law_title_of text)
                     (Congo.content_extract_of text) Congo.txt lang)
      (congo_record lang url text) text
      (with_event (EvPrint (MsgTitle (prefix 200 (normalize (Congo.law_title_of text))))) s).
Proof.
  unfold Congo.store_law, Congo.create_destination_file, store_outcome.
  rewrite !bind_run. unfold print at 1, emit at 1. cbv beta iota.
  rewrite bind_run, path_exists_run.
  destruct (bool_decide _); [reflexivity|].
  cbv beta iota. unfold ret at 1. cbv beta iota.
  rewrite bind_run, write_text_run.
  destruct (openable _); [|done]. destruct (encodable text); reflexivity.
Qed.

Lemma belgium_flush_run (s : state) :
  Belgium.write_metadata_json s
  = if openable (os_path_join here Belgium.METADATA_PATH)
    then (Ok tt, flushed (os_path_join here Belgium.METADATA_PATH) s)
    else (Raise OSError, s).
Proof. unfold Belgium.write_metadata_json. by destruct (openable _). Qed.

Lemma congo_flush_run (s : state) :
  Congo.write_metadata_json s
  = if openable (os_path_join here Congo.METADATA_PATH)
    then (Ok tt, flushed (os_path_join here Congo.METADATA_PATH) s)
    else (Raise OSError, s).
Proof. unfold Congo.write_metadata_json. by destruct (openable _). Qed.

(** The outcome of the store part, relation by relation. *)

Lemma store_outcome_files (p : str) (r : record) (text : str) (s : state) :
  R_files s (snd (store_outcome p r text s)).
Proof.
  unfold store_outcome, R_files.
  destruct (bool_decide _), (openable p), (encodable text); simpl; try done.
  all: intros q Hq; destruct (decide (p = q)) as [->|Hne];
    [rewrite lookup_insert_eq; eauto | by rewrite lookup_insert_ne].
Qed.

Lemma store_outcome_trace (p : str) (r : record) (text : str) (s : state) :
  R_trace s (snd (store_outcome p r text s)).
Proof.
  unfold store_outcome, R_trace.
  destruct (bool_decide _), (openable p), (encodable text); simpl; try done.
  all: rewrite <- ?app_assoc; by apply prefix_app_r.
Qed.

Lemma store_outcome_quiet (p : str) (r : record) (text : str) (s : state) :
  R_quiet s (snd (store_outcome p r text s)).
Proof.
  unfold store_outcome, R_quiet.
  destruct (bool_decide _), (openable p), (encodable text); simpl; try done.
  all: rewrite ?milestones_snoc; simpl; by rewrite ?app_nil_r.
Qed.

Lemma store_outcome_clicks (p : str) (r : record) (text : str) (s : state) :
  R_clicks s (snd (store_outcome p r text s)).
Proof.
  unfold store_outcome, R_clicks.
  destruct (bool_decide _), (openable p), (encodable text); simpl; try done.
  all: intros Hs; repeat apply events_ok_snoc; done.
Qed.

Lemma ledger_inv_appended (r : record) (s : state) :
  ledger_inv s → EvWrote (download_path r) ∈ trace s → ledger_inv (appended r s).
Proof.
  intros (H1 & H2 & H3) Hw. split; [|split]; simpl.
  - by repeat apply events_ok_snoc.
  - intros r' Hr. rewrite <- app_assoc. apply elem_of_app.
    apply elem_of_app in Hr as [Hr|Hr%list_elem_of_singleton]; [left; by apply H2|].
    subst r'. by left.
  - intros q Hq. rewrite <- app_assoc in Hq.
    apply elem_of_app in Hq as [Hq|Hq]; [by apply H3|].
    apply elem_of_cons in Hq as [Hq|Hq%list_elem_of_singleton]; done.
Qed.

Lemma store_outcome_ledger (p : str) (r : record) (text : str) (s : state) :
  download_path r = p → R_ledger s (snd (store_outcome p r text s)).
Proof.
  intros Hr. unfold store_outcome, R_ledger.
  destruct (bool_decide _), (openable p), (encodable text); simpl; try done.
  1-4: by apply (fr_print (R := R_ledger)).
  - intros Hs. apply ledger_inv_appended.
    + apply ledger_inv_wrote; [by apply ledger_inv_insert|].
      simpl. rewrite lookup_insert_eq. eauto.
    + simpl. rewrite Hr. set_solver.
  - apply ledger_inv_insert.
Qed.

Lemma flushed_files (mp : str) (s : state) : R_files s (flushed mp s).
Proof.
  intros q Hq. simpl. destruct (decide (mp = q)) as [->|Hne];
    [rewrite lookup_insert_eq; eauto | by rewrite lookup_insert_ne].
Qed.

Lemma flushed_trace (mp : str) (s : state) : R_trace s (flushed mp s).
Proof. unfold R_trace. simpl. rewrite <- app_assoc. by apply prefix_app_r. Qed.

Lemma flushed_clicks (mp : str) (s : state) : R_clicks s (flushed mp s).
Proof. intros Hs. simpl. by repeat apply events_ok_snoc. Qed.

Lemma flushed_ledger (mp : str) (s : state) : R_ledger s (flushed mp s).
Proof.
  intros (H1 & H2 & H3). split; [|split]; simpl.
  - by repeat apply events_ok_snoc.
  - intros r Hr. rewrite <- app_assoc. apply elem_of_app. left. by apply H2.
  - intros q Hq. rewrite <- app_assoc in Hq.
    apply elem_of_app in Hq as [Hq|Hq];
      [|apply elem_of_cons in Hq as [Hq|Hq%list_elem_of_singleton]; done].
    destruct (decide (mp = q)) as [->|Hne];
      [rewrite lookup_insert_eq; eauto | rewrite lookup_insert_ne; auto].
Qed.

End StoreSteps.

(** The store part and the flush, as steps of each relation. *)
Ltac store_steps lem :=
  intros s;
  first [ rewrite belgium_store_law_run | rewrite congo_store_law_run ];
  first [ apply lem
        | eapply fr_trans; [apply fr_print | apply lem] ];
  try reflexivity.

Ltac flush_steps lem :=
  intros s;
  first [ rewrite belgium_flush_run | rewrite congo_flush_run ];
  destruct (openable _); [apply lem | apply fr_refl].

Section StoreStepsBoth.
Context {U : Unicode} {D : Driver} {H : Host}.

Lemma belgium_store_files l t x : steps R_files (Belgium.store_law l t x).
Proof. store_steps store_outcome_files. Qed.
Lemma belgium_store_trace l t x : steps R_trace (Belgium.store_law l t x).
Proof. store_steps store_outcome_trace. Qed.
Lemma belgium_store_quiet l t x : steps R_quiet (Belgium.store_law l t x).
Proof. store_steps store_outcome_quiet. Qed.
Lemma belgium_store_clicks l t x : steps R_clicks (Belgium.store_law l t x).
Proof. store_steps store_outcome_clicks. Qed.
Lemma belgium_store_ledger l t x : steps R_ledger (Belgium.store_law l t x).
Proof. store_steps store_outcome_ledger. Qed.

Lemma congo_store_files l u x : steps R_files (Congo.store_law l u x).
Proof. store_steps store_outcome_files. Qed.
Lemma congo_store_trace l u x : steps R_trace (Congo.store_law l u x).
Proof. store_steps store_outcome_trace. Qed.
Lemma congo_store_clicks l u x : steps R_clicks (Congo.store_law l u x).
Proof. store_steps store_outcome_clicks. Qed.
Lemma congo_store_ledger l u x : steps R_ledger (Congo.store_law l u x).
Proof. store_steps store_outcome_ledger. Qed.

Lemma belgium_flush_files : steps R_files Belgium.write_metadata_json.
Proof. flush_steps flushed_files. Qed.
Lemma belgium_flush_trace : steps R_trace Belgium.write_metadata_json.
Proof. flush_steps flushed_trace. Qed.
Lemma belgium_flush_clicks : steps R_clicks Belgium.write_metadata_json.
Proof. flush_steps flushed_clicks. Qed.
Lemma belgium_flush_ledger : steps R_ledger Belgium.write_metadata_json.
Proof. flush_steps flushed_ledger. Qed.

Lemma congo_flush_files : steps R_files Congo.write_metadata_json.
Proof. flush_steps flushed_files. Qed.
Lemma congo_flush_trace : steps R_trace Congo.write_metadata_json.
Proof. flush_steps flushed_trace. Qed.
Lemma congo_flush_clicks : steps R_clicks Congo.write_metadata_json.
Proof. flush_steps flushed_clicks. Qed.
Lemma congo_flush_ledger : steps R_ledger Congo.write_metadata_json.
Proof. flush_steps flushed_ledger. Qed.

End StoreStepsBoth.

#[export] Hint Resolve belgium_store_files belgium_store_trace belgium_store_quiet
  belgium_store_clicks belgium_store_ledger congo_store_files congo_store_trace
  congo_store_clicks congo_store_ledger belgium_flush_files belgium_flush_trace
  belgium_flush_clicks belgium_flush_ledger congo_flush_files congo_flush_trace
  congo_flush_clicks congo_flush_ledger : steps.

(** The two scripts, relation by relation. *)

Ltac program_steps :=
  unfold Belgium.scrape_belgium_laws, Belgium.scrape_language, Belgium.visit_law,
    Belgium.open_law, Belgium.back_to_listing,
    Congo.scrape_drc_laws, Congo.try_visit_law, Congo.visit_law, Congo.open_law;
  steps_tac.

Section Programs.
Context {U : Unicode} {D : Driver} {H : Host}.

Lemma belgium_ledger langs headless :
  steps R_ledger (Belgium.scrape_belgium_laws langs headless).
Proof. program_steps. Qed.

Lemma congo_ledger headless : steps R_ledger (Congo.scrape_drc_laws headless).
Proof. program_steps. Qed.

Lemma belgium_files langs headless :
  steps R_files (Belgium.scrape_belgium_laws langs headless).
Proof. program_steps. Qed.

Lemma congo_files headless : steps R_files (Congo.scrape_drc_laws headless).
Proof. program_steps. Qed.

Lemma belgium_trace langs headless :
  steps R_trace (Belgium.scrape_belgium_laws langs headless).
Proof. program_steps. Qed.

Lemma congo_trace headless : steps R_trace (Congo.scrape_drc_laws headless).
Proof. program_steps. Qed.

End Programs.

(** Hoare triples *)

Section Hoare.
Context {U : Unicode} {D : Driver} {H : Host}.
Context (I : state -> Prop).
Import ChromeBot.
Open Scope py_scope.

Lemma hoare_bind {A B} (P : state -> Prop) (Q : A -> state -> Prop)
    (T : B -> state -> Prop) (m : M A) (k : A -> M B) :
  hoare I P m Q → (∀ a, hoare I (Q a) (k a) T) → hoare I P (bind m k) T.
Proof.
  intros Hm Hk s Hi Hp. destruct (Hm s Hi Hp) as [Hi1 Hq]. rewrite bind_run.
  destruct (m s) as [[a|e] s1]; simpl in *.
  - apply (Hk a s1 Hi1 (Hq a eq_refl)).
  - split; [done|]. by intros a.
Qed.

Lemma hoare_weaken {A} (P P' : state -> Prop) (Q Q' : A -> state -> Prop) (m : M A) :
  hoare I P' m Q' → (∀ s, P s → P' s) → (∀ a s, Q' a s → Q a s) → hoare I P m Q.
Proof.
  intros Hm HP HQ s Hi Hp. destruct (Hm s Hi (HP s Hp)) as [Hi1 Hq].
  split; [done|]. intros a Ha. by apply HQ, Hq.
Qed.

Lemma hoare_steps {A} (P : state -> Prop) (m : M A) :
  steps (fun s s' => I s → I s') m → hoare I P m (fun _ _ => True).
Proof. intros Hm s Hi _. split; [by apply Hm | done]. Qed.

Lemma hoare_ret {A} (P : state -> Prop) (a : A) : hoare I P (ret a) (fun _ => P).
Proof. intros s Hi Hp. split; [done|]. by intros a' _. Qed.

(** Statements that leave the navigation count alone keep what is known
    about handles. *)
Lemma hoare_py_len {A} (P : state -> Prop) (v : option (list A)) :
  hoare I P (py_len v) (fun n s => P s ∧ ∀ l, v = Some l → n = length l).
Proof.
  intros s Hi Hp. destruct v as [l|]; simpl; (split; [done|]); intros a [=].
  subst. split; [done|]. by intros ? [= <-].
Qed.

Lemma hoare_py_index (v : option (list handle)) (i : nat) :
  hoare I (all_current v) (py_index v i)
    (fun h s => h_born h = navs s ∧ ∃ l, v = Some l ∧ l !! i = Some h).
Proof.
  intros s Hi Hp. destruct v as [l|]; simpl; [|split; [done|]; by intros a].
  destruct (l !! i) as [h|] eqn:E; simpl; (split; [done|]); intros a [=]. subst.
  split; [|eauto]. specialize (Hp l eq_refl). rewrite Forall_forall in Hp.
  apply Hp. by eapply list_elem_of_lookup_2.
Qed.

Lemma find_xpath_solo_run (xpath : str) (s : state) :
  find_xpath_solo xpath s =
    match drv_find_element xpath (browser s) with
    | (Ok e, w) => (Ok (Some {| h_el := e; h_born := navs s |}), with_browser w s)
    | (Raise IndexError, w) =>
        (Ok None, with_event (EvPrint MsgXpathFailed) (with_browser w s))
    | (Raise e, w) => (Raise e, with_browser w s)
    end.
Proof.
  cbv [find_xpath_solo located try_except_index bind call get_navs ret print emit].
  by destruct (drv_find_element xpath (browser s)) as [[e|[]] w].
Qed.

Lemma find_xpath_run (xpath : str) (s : state) :
  find_xpath xpath s =
    match drv_find_elements xpath (browser s) with
    | (Ok es, w) =>
        (Ok (Some (map (fun e => {| h_el := e; h_born := navs s |}) es)), with_browser w s)
    | (Raise IndexError, w) =>
        (Ok None, with_event (EvPrint MsgXpathFailed) (with_browser w s))
    | (Raise e, w) => (Raise e, with_browser w s)
    end.
Proof.
  cbv [find_xpath try_except_index bind call get_navs ret print emit].
  by destruct (drv_find_elements xpath (browser s)) as [[e|[]] w].
Qed.

Context {FR : Frame (fun s s' => I s → I s')}.

Lemma hoare_find_xpath_solo (P : state -> Prop) (xpath : str) :
  hoare I P (find_xpath_solo xpath) current.
Proof.
  intros s Hi _.
  split; [by apply (steps_find_xpath_solo (fun s s' => I s → I s') xpath s)|].
  rewrite find_xpath_solo_run.
  destruct (drv_find_element xpath (browser s)) as [[e|[]] w]; simpl; try done.
  - by intros a [= <-] h [= <-].
  - by intros a [= <-] h.
Qed.

Lemma hoare_find_xpath (P : state -> Prop) (xpath : str) :
  hoare I P (find_xpath xpath) all_current.
Proof.
  intros s Hi _.
  split; [by apply (steps_find_xpath (fun s s' => I s → I s') xpath s)|].
  rewrite find_xpath_run.
  destruct (drv_find_elements xpath (browser s)) as [[es|[]] w]; simpl; try done.
  - intros a [= <-] l [= <-]. apply Forall_map. by apply Forall_true.
  - by intros a [= <-] l.
Qed.

Lemma hoare_print (P : state -> Prop) (msg : message) :
  (∀ s e, P s → P (with_event e s)) → hoare I P (print msg) (fun _ => P).
Proof.
  intros HP s Hi Hp. split; [by apply (fr_print (R := fun s s' => I s → I s') s msg)|]. intros a _. by apply HP.
Qed.

Lemma hoare_for_in_var {A V} (P : V -> state -> Prop) (xs : list A)
    (body : A -> V -> M V) (v : V) :
  (∀ x v, hoare I (P v) (body x v) P) → hoare I (P v) (for_in_var xs body v) P.
Proof.
  intros Hb. revert v. induction xs as [|x xs IH]; intros v; simpl.
  - intros s Hi Hp. split; [done|]. by intros a [= <-].
  - eapply hoare_bind; [apply Hb | apply IH].
Qed.

Lemma hoare_for_in_return {A} (xs : list A) (body : A -> M flow) :
  (∀ x, hoare I (fun _ => True) (body x) (fun _ _ => True)) →
  hoare I (fun _ => True) (for_in_return xs body) (fun _ _ => True).
Proof.
  intros Hb. induction xs as [|x xs IH]; simpl.
  - by intros s Hi _.
  - eapply hoare_bind; [apply Hb|]. intros [|]; [apply IH | by intros s Hi _].
Qed.

End Hoare.

(** Clicks of the Belgian script *)

Lemma hoare_steps_clicks {D : Driver} {A} (P : state -> Prop) (m : M A) :
  steps R_clicks m → hoare clicks_inv P m (fun _ _ => True).
Proof. apply hoare_steps. Qed.

Ltac hoare_skip :=
  eapply hoare_bind; [apply hoare_steps_clicks; program_steps | intros ?].

Section BelgiumClicks.
Context {U : Unicode} {D : Driver} {H : Host}.
Import ChromeBot.
Open Scope py_scope.

Lemma hoare_click (r : role) (o : option handle) :
  hoare clicks_inv (fun s => current o s ∧ role_ok r) (click r o) (fun _ _ => True).
Proof.
  intros s Hi [Ho Hr]. split; [|done].
  destruct o as [h|]; [|done].
  cbv [click bind get_navs emit navigated call]. simpl.
  apply events_ok_snoc; [done|]. split; simpl.
  - by apply Ho.
  - by destruct r.
Qed.

Lemma hoare_open_law (i : nat) (all_links : option (list handle)) :
  hoare clicks_inv (all_current all_links) (Belgium.open_law i all_links)
    (fun _ _ => True).
Proof.
  unfold Belgium.open_law.
  eapply hoare_bind; [apply hoare_py_index|]. intros link_i.
  eapply hoare_bind; [apply hoare_py_len|]. intros n.
  eapply hoare_bind.
  { eapply hoare_weaken; [apply hoare_click| |done].
    intros s [[Hb (l & Hv & Hl)] Hn]. split.
    - by intros h [= <-].
    - simpl. rewrite (Hn l Hv). by eapply lookup_lt_Some. }
  intros ?. apply hoare_steps_clicks. program_steps.
Qed.

Lemma hoare_back_to_listing (P : state -> Prop) :
  hoare clicks_inv P Belgium.back_to_listing all_current.
Proof.
  unfold Belgium.back_to_listing.
  do 3 hoare_skip.
  eapply hoare_bind; [apply (hoare_find_xpath_solo clicks_inv (FR := R_clicks_frame))|].
  intros button_back.
  eapply hoare_bind.
  { eapply hoare_weaken; [apply hoare_click| |done]. by intros s Hs. }
  intros ?. do 4 hoare_skip.
  apply (hoare_find_xpath clicks_inv (FR := R_clicks_frame)).
Qed.

Lemma hoare_visit_law (lang : str) (i : nat) (all_links : option (list handle)) :
  hoare clicks_inv (all_current all_links) (Belgium.visit_law lang i all_links)
    all_current.
Proof.
  unfold Belgium.visit_law.
  eapply hoare_bind; [apply hoare_open_law|]. intros law.
  hoare_skip. apply hoare_back_to_listing.
Qed.

Lemma hoare_scrape_language (lang : str) :
  hoare clicks_inv (fun _ => True) (Belgium.scrape_language lang) (fun _ _ => True).
Proof.
  unfold Belgium.scrape_language.
  eapply hoare_bind; [apply (hoare_find_xpath_solo clicks_inv (FR := R_clicks_frame))|].
  intros [h|]; [|by intros s Hi _].
  eapply hoare_bind.
  { eapply hoare_weaken; [apply hoare_click| |done]. by intros s Hs. }
  intros ?. do 2 hoare_skip.
  eapply hoare_bind; [apply (hoare_find_xpath clicks_inv (FR := R_clicks_frame))|].
  intros all_links.
  eapply hoare_bind; [apply hoare_py_len|]. intros n.
  eapply hoare_bind.
  { apply (hoare_weaken clicks_inv _ (all_current all_links)
             (fun _ => all_current all_links) (fun _ => all_current all_links)).
    - apply (hoare_print clicks_inv (FR := R_clicks_frame)). by intros s e Hs.
    - by intros s [Hs _].
    - done. }
  intros ?.
  eapply hoare_bind.
  { apply (hoare_for_in_var clicks_inv all_current). intros x v.
    apply hoare_visit_law. }
  intros ?. apply hoare_steps_clicks. program_steps.
Qed.

Lemma belgium_clicks (langs : option (list str)) (headless : bool) (s : state) :
  clicks_inv s → clicks_inv (snd (Belgium.scrape_belgium_laws langs headless s)).
Proof.
  intros Hi.
  assert (hoare clicks_inv (fun _ => True)
            (Belgium.scrape_belgium_laws langs headless) (fun _ _ => True)) as Hh.
  { unfold Belgium.scrape_belgium_laws. do 3 hoare_skip.
    destruct langs as [langs|]; [|by intros s' Hi' _].
    eapply hoare_bind.
    { apply hoare_for_in_return. intros x. apply hoare_scrape_language. }
    intros f. apply hoare_steps_clicks. program_steps. }
  by apply Hh.
Qed.

End BelgiumClicks.

Lemma events_ok_impl {D : Driver} (chk chk' : list event -> event -> Prop)
    (tr : list event) :
  (∀ hist e, chk hist e → chk' hist e) → events_ok chk tr → events_ok chk' tr.
Proof. intros Himpl Hok i e Hi. by apply Himpl, Hok. Qed.

(** ** C4: the identifier of a title *)




(** ** C8: the identifier of a law without a title *)

(** C8, at a text of 600 letters: the identifier has 250 characters, more
    than the 200 of the claim. *)
Lemma identifier_longer_than_200 :
  length (Congo.identifier (U := Mock.latin1)
            (Congo.law_title_of text_600) (Congo.content_extract_of text_600)) = 250%nat.
Proof. vm_compute. done. Qed.

(** C8, as the code has it: the identifier is the normalized slice
    [[300:550]] of the text cut to 200 characters, followed by the
    normalized slice [[-300:-250]] cut to 50 characters; it has at most
    250 characters. *)
Theorem identifier_of_text {U : Unicode} (text_soup : str) :
  let id := Congo.identifier (Congo.law_title_of text_soup)
              (Congo.content_extract_of text_soup) in
  let a := prefix 200 (normalize (slice 300 550 text_soup)) in
  let b := prefix 50 (normalize (slice (-300) (-250) text_soup)) in
  id = a ++ b
  ∧ (length a ≤ 200)%nat ∧ (length b ≤ 50)%nat ∧ (length id ≤ 250)%nat
  ∧ Congo.file_path (Congo.law_title_of text_soup) (Congo.content_extract_of text_soup)
      Congo.txt Congo.french
    = lit "./data/DRC/french/txt/" ++ id ++ lit ".txt".
Proof.
  intros id a b.
  pose proof (length_prefix 200 (normalize (slice 300 550 text_soup))) as Ha.
  pose proof (length_prefix 50 (normalize (slice (-300) (-250) text_soup))) as Hb.
  split; [done|]. split; [done|]. split; [done|]. split.
  - change (length (a ++ b) ≤ 250)%nat. rewrite length_app. subst a b. lia.
  - done.
Qed.

(** ** C9: the ledger and the files *)

(** C9: in a process that starts with an empty [METADATA], in both
    scripts, every record is appended after the file of its
    [download_path] was written, every flush dumps records whose files were
    written before it, and at the end the file of every record of
    [METADATA] is on disk. *)
Theorem ledger_records_are_written {U : Unicode} {D : Driver} {H : Host} (s : state) :
  METADATA s = [] → trace s = [] →
  (∀ langs headless, ledger_inv (snd (Belgium.scrape_belgium_laws langs headless s)))
  ∧ (∀ headless, ledger_inv (snd (Congo.scrape_drc_laws headless s))).
Proof.
  intros Hm Ht.
  assert (ledger_inv s) as Hs.
  { unfold ledger_inv. rewrite Hm, Ht. split; [apply events_ok_nil|].
    split; intros ? Hin; by apply elem_of_nil in Hin. }
  split; intros.
  - by apply belgium_ledger.
  - by apply congo_ledger.
Qed.

(** The same on a site of two laws. *)
Lemma ledger_records_are_written_witness :
  ledger_inv (snd (Congo.scrape_drc_laws (U := Mock.latin1) (H := Mock.host) true
                     (Mock.boot Mock.site_two))).
Proof.
  apply (ledger_records_are_written (Mock.boot Mock.site_two)); reflexivity.
Defined.

(** ** Clicks on links *)

Section LinkPasses.
Context {U : Unicode} {D : Driver} {H : Host}.
Import ChromeBot.
Open Scope py_scope.

Lemma link_clicks_snoc (tr : list event) (e : event) :
  link_clicks (tr ++ [e])
  = link_clicks tr ++ match e with
                      | EvClick (DocLink i n) born now => [(i, n, born, now)]
                      | _ => []
                      end.
Proof.
  unfold link_clicks. rewrite omap_app. simpl.
  destruct e as [r b n|p|r|l|m]; try done. by destruct r.
Qed.

Lemma link_clicks_snoc_other (tr : list event) (e : event) :
  (∀ i n born now, e ≠ EvClick (DocLink i n) born now) →
  link_clicks (tr ++ [e]) = link_clicks tr.
Proof.
  intros He. rewrite link_clicks_snoc.
  destruct e as [r b n|p|r|l|m]; rewrite ?app_nil_r; try done.
  destruct r; rewrite ?app_nil_r; try done. by destruct (He i n0 b n).
Qed.

#[export] Instance R_nolink_frame : Frame R_nolink.
Proof.
  split; unfold R_nolink; simpl; try done.
  - intros s1 s2 s3 E1 E2. congruence.
  - intros s m. by apply link_clicks_snoc_other.
Qed.

Lemma click_ok_nolink_open : click_ok R_nolink OpenListing.
Proof. intros s b. unfold R_nolink. simpl. by apply link_clicks_snoc_other. Qed.

Lemma click_ok_nolink_select (l : str) : click_ok R_nolink (SelectCategory l).
Proof. intros s b. unfold R_nolink. simpl. by apply link_clicks_snoc_other. Qed.

Lemma click_ok_nolink_back : click_ok R_nolink BackToMenu.
Proof. intros s b. unfold R_nolink. simpl. by apply link_clicks_snoc_other. Qed.

Lemma store_outcome_still (p : str) (r : record) (text : str) (s : state) :
  navs (snd (store_outcome p r text s)) = navs s
  ∧ R_nolink s (snd (store_outcome p r text s)).
Proof.
  unfold store_outcome, R_nolink.
  destruct (bool_decide _), (openable p), (encodable text); simpl; try done.
  all: split; [done|]; by rewrite ?link_clicks_snoc_other.
Qed.

Lemma belgium_store_nolink l t x : steps R_nolink (Belgium.store_law l t x).
Proof. intros s. rewrite belgium_store_law_run. apply store_outcome_still. Qed.

Lemma congo_store_still l u x : still (Congo.store_law l u x).
Proof.
  intros s. rewrite congo_store_law_run.
  destruct (store_outcome_still
    (Congo.destination_path (Congo.law_title_of x) (Congo.content_extract_of x)
       Congo.txt l)
    (congo_record l u x) x
    (with_event (EvPrint (MsgTitle (prefix 200 (normalize (Congo.law_title_of x))))) s))
    as [Hn Hl].
  split; [done|]. unfold R_nolink in *. rewrite Hl. simpl.
  by apply link_clicks_snoc_other.
Qed.

Lemma flushed_nolink (mp : str) (s : state) : R_nolink s (flushed mp s).
Proof. unfold R_nolink, flushed. simpl. by rewrite !link_clicks_snoc_other. Qed.

Lemma belgium_flush_nolink : steps R_nolink Belgium.write_metadata_json.
Proof.
  intros s. rewrite belgium_flush_run. destruct (openable _); simpl;
    [apply flushed_nolink | done].
Qed.

Lemma congo_flush_nolink : steps R_nolink Congo.write_metadata_json.
Proof.
  intros s. rewrite congo_flush_run. destruct (openable _); simpl;
    [apply flushed_nolink | done].
Qed.

(** Statements that neither navigate nor click on a link. *)

Lemma still_ret {A} (x : A) : still (ret x).
Proof. by intros s. Qed.

Lemma still_bind {A B} (m : M A) (k : A -> M B) :
  still m → (∀ x, still (k x)) → still (bind m k).
Proof.
  intros Hm Hk s. rewrite bind_run. destruct (Hm s) as [Hn Hl].
  destruct (m s) as [[x|e] s1]; simpl in *; [|done].
  destruct (Hk x s1) as [Hn' Hl']. unfold R_nolink in *. split; congruence.
Qed.

Lemma still_call {A} (f : world -> result A * world) : still (call f).
Proof. by intros s. Qed.

Lemma still_print (m : message) : still (print m).
Proof. intros s. split; [done|]. unfold R_nolink. simpl. by apply link_clicks_snoc_other. Qed.

Lemma still_soup (html : str) : still (soup html).
Proof. by intros s. Qed.

(** Statements that click on one link. *)

Lemma clicks_once_click (i n : nat) (h : handle) :
  clicks_once (fun now => (i, n, h_born h, now)) (click (DocLink i n) (Some h)).
Proof.
  intros s. cbv [click bind get_navs emit navigated call]. simpl.
  split; [done|]. by rewrite link_clicks_snoc.
Qed.

Lemma clicks_once_bind {A B} c (m : M A) (k : A -> M B) :
  clicks_once c m → (∀ x, still (k x)) → clicks_once c (bind m k).
Proof.
  intros Hm Hk s. rewrite bind_run. destruct (Hm s) as [Hn Hl].
  destruct (m s) as [[x|e] s1]; simpl in *; [|done].
  destruct (Hk x s1) as [Hn' Hl']. unfold R_nolink in *. split; congruence.
Qed.

Lemma clicks_once_ext {A} c (m m' : M A) :
  (∀ s, m s = m' s) → clicks_once c m' → clicks_once c m.
Proof. intros E Hm s. rewrite E. apply Hm. Qed.

Lemma clicks_once_try_except {A} c (m h : M A) :
  clicks_once c m → still h → clicks_once c (try_except m h).
Proof.
  intros Hm Hh s. unfold try_except. destruct (Hm s) as [Hn Hl].
  destruct (m s) as [[x|e] s1]; simpl in *; [done|].
  destruct (Hh s1) as [Hn' Hl']. unfold R_nolink in *. split; congruence.
Qed.

Lemma congo_try_visit_clicks_once (lang : str) (l : list handle) (i : nat) (h : handle) :
  l !! i = Some h →
  clicks_once (fun now => (i, length l, h_born h, now))
    (Congo.try_visit_law lang (Some l) i).
Proof.
  intros Hi. unfold Congo.try_visit_law.
  apply clicks_once_try_except; [|apply still_print].
  unfold Congo.visit_law. apply clicks_once_bind; [|intros ?; apply congo_store_still].
  unfold Congo.open_law. simpl. rewrite Hi.
  eapply clicks_once_ext.
  { intros s. rewrite bind_run. unfold ret at 1. cbv beta iota.
    rewrite bind_run. unfold ret at 1. cbv beta iota. reflexivity. }
  apply clicks_once_bind; [apply clicks_once_click|]. intros _.
  unfold get_url, get_html.
  repeat first [apply still_bind; [|intros ?] | apply still_print | apply still_call
               | apply still_soup | apply still_ret].
Qed.

(** One pass of the DRC loop over links that were all located at count
    [born]. *)
Lemma congo_pass (lang : str) (l : list handle) (born : nat) (k a : nat) (s : state) :
  Forall (fun h => h_born h = born) l → (a + k ≤ length l)%nat →
  let s' := snd (for_in (seq a k) (Congo.try_visit_law lang (Some l)) s) in
  navs s' = (navs s + k)%nat
  ∧ link_clicks (trace s')
    = link_clicks (trace s)
      ++ map (fun j => (a + j, length l, born, navs s + j)%nat) (seq 0 k).
Proof.
  intros Hb. revert a s. induction k as [|k IH]; intros a s Hk; simpl.
  - split; [lia | by rewrite app_nil_r].
  - destruct (lookup_lt_is_Some_2 l a ltac:(lia)) as [h Hh].
    rewrite bind_run.
    destruct (congo_try_visit_clicks_once lang l a h Hh s) as [Hn Hl].
    assert (fst (Congo.try_visit_law lang (Some l) a s) = Ok tt) as Hr.
    { unfold Congo.try_visit_law, try_except.
      by destruct (Congo.visit_law lang (Some l) a s) as [[[]|e] s1]. }
    destruct (Congo.try_visit_law lang (Some l) a s) as [[[]|e] s1]; [|done].
    simpl in *. destruct (IH (S a) s1 ltac:(lia)) as [Hn' Hl'].
    split; [lia|]. rewrite Hl', Hl, <- app_assoc. f_equal. simpl.
    rewrite Forall_forall in Hb. rewrite (Hb h (list_elem_of_lookup_2 _ _ _ Hh)).
    rewrite !Nat.add_0_r. f_equal.
    rewrite <- seq_shift, map_map. apply map_ext. intros j.
    rewrite Hn.
    assert (a + S j = S (a + j))%nat as -> by lia.
    by assert (navs s + S j = S (navs s) + j)%nat as -> by lia.
Qed.

End LinkPasses.

#[export] Hint Resolve click_ok_nolink_open click_ok_nolink_select click_ok_nolink_back
  belgium_store_nolink belgium_flush_nolink congo_flush_nolink : steps.

(** ** C1: link handles and navigation *)

(** C1, in the DRC script on a site of two laws: the links are located
    once, at navigation count 2; the second link is clicked at count 3,
    after the click on the first. *)
Lemma drc_clicks_a_stale_link :
  Mock.clicks (trace (snd (Congo.scrape_drc_laws (U := Mock.latin1) (H := Mock.host) true
                             (Mock.boot Mock.site_two))))
    = [(OpenListing, 1, 1); (DocLink 0 2, 2, 2); (DocLink 1 2, 2, 3)]%nat
  ∧ ¬ events_ok chk_fresh
        (trace (snd (Congo.scrape_drc_laws (U := Mock.latin1) (H := Mock.host) true
                       (Mock.boot Mock.site_two)))).
Proof.
  split; [by vm_compute|]. intros Hok.
  specialize (Hok 9%nat (EvClick (DocLink 1 2) 2 3)).
  assert (2 = 3)%nat as Habs; [|done]. apply Hok. by vm_compute.
Qed.

(** ** C7: the index of the link *)


(** ** Short texts *)

Section ShortTexts.
Context {U : Unicode} {D : Driver} {H : Host}.

Lemma store_outcome_present (p : str) (r : record) (text : str) (s : state) :
  is_Some (fs s !! p) →
  store_outcome p r text s = (Ok tt, with_event (EvPrint (MsgAlready p)) s).
Proof. intros Hp. unfold store_outcome. by rewrite bool_decide_true. Qed.

Lemma store_outcome_ok (p : str) (r : record) (text : str) (s s' : state) :
  store_outcome p r text s = (Ok tt, s') → is_Some (fs s' !! p).
Proof.
  unfold store_outcome. destruct (bool_decide _) eqn:E.
  - intros [= <-]. by apply bool_decide_eq_true in E.
  - destruct (openable p), (encodable text); intros [= <-]; simpl.
    rewrite lookup_insert_eq. eauto.
Qed.

Lemma store_outcome_raise (p : str) (r : record) (text : str) (s s' : state) (e : exn) :
  store_outcome p r text s = (Raise e, s') → METADATA s' = METADATA s.
Proof.
  unfold store_outcome.
  destruct (bool_decide _), (openable p), (encodable text); by intros [= <- <-].
Qed.

End ShortTexts.

(** A text of at most 250 characters has an empty title slice and an
    empty trailing slice, so its destination is the one path
    [.../data/DRC/french/txt/.txt]; when that path exists the store part
    of a visit writes nothing and appends nothing; it exists once the
    store part of a short text has returned, and no later visit removes
    it. *)
Theorem short_texts_share_one_path {U : Unicode} {D : Driver} {H : Host}
    (text_soup : str) :
  (length text_soup ≤ 250)%nat →
  let p := os_path_join here (lit "./data/DRC/french/txt/.txt") in
  Congo.law_title_of text_soup = [] ∧ Congo.content_extract_of text_soup = []
  ∧ Congo.destination_path (Congo.law_title_of text_soup)
      (Congo.content_extract_of text_soup) Congo.txt Congo.french = p
  ∧ (∀ url s, is_Some (fs s !! p) →
       ∃ s', Congo.store_law Congo.french url text_soup s = (Ok tt, s')
             ∧ fs s' = fs s ∧ METADATA s' = METADATA s)
  ∧ (∀ url s s', Congo.store_law Congo.french url text_soup s = (Ok tt, s') →
       is_Some (fs s' !! p))
  ∧ (∀ links i s, is_Some (fs s !! p) →
       is_Some (fs (snd (Congo.try_visit_law Congo.french links i s)) !! p)).
Proof.
  intros Hlen p.
  assert (Congo.law_title_of text_soup = []) as Ht.
  { apply slice_empty_from; unfold len; lia. }
  assert (Congo.content_extract_of text_soup = []) as Hc.
  { apply slice_empty_to; unfold len; lia. }
  assert (Congo.destination_path (Congo.law_title_of text_soup)
            (Congo.content_extract_of text_soup) Congo.txt Congo.french = p) as Hp.
  { by rewrite Ht, Hc. }
  split; [done|]. split; [done|]. split; [done|]. split; [|split].
  - intros url s Hs. rewrite congo_store_law_run, Hp.
    rewrite store_outcome_present by done. eauto.
  - intros url s s'. rewrite congo_store_law_run, Hp. apply store_outcome_ok.
  - intros links i s Hs.
    assert (steps R_files (Congo.try_visit_law Congo.french links i)) as Hst
      by program_steps.
    by apply Hst.
Qed.

(** The same at the text of a law of the test site. *)
Lemma short_texts_share_one_path_witness :
  Congo.law_title_of (lit "Texte de la loi A") = []
  ∧ Congo.content_extract_of (lit "Texte de la loi A") = [].
Proof.
  pose proof (short_texts_share_one_path (U := Mock.latin1)
                (D := Mock.driver Mock.site_two) (H := Mock.host)
                (lit "Texte de la loi A")) as Hw.
  simpl in Hw. destruct Hw as (Ht & Hc & _); [lia|]. by split.
Defined.

(** ** A failing document *)

Section FailingVisit.
Context {U : Unicode} {D : Driver} {H : Host}.
Open Scope py_scope.

Lemma bind_ret_l {A B} (a : A) (k : A -> M B) : bind (ret a) k = k a.
Proof. reflexivity. Qed.

Lemma emits_bind_l {A B} (E : event -> Prop) (m : M A) (k : A -> M B) :
  emits E m → (∀ a, steps R_trace (k a)) → emits E (bind m k).
Proof.
  intros Hm Hk s. destruct (Hm s) as (ev & Hev & Hin). exists ev. split; [done|].
  rewrite bind_run. specialize (Hk) as Hk'.
  destruct (m s) as [[a|e] s1]; simpl in *; [|done].
  eapply elem_of_prefix; [exact Hin | apply Hk].
Qed.

Lemma emits_try_except {A} (E : event -> Prop) (m h : M A) :
  emits E m → steps R_trace h → emits E (try_except m h).
Proof.
  intros Hm Hh s. destruct (Hm s) as (ev & Hev & Hin). exists ev. split; [done|].
  unfold try_except. destruct (m s) as [[a|e] s1]; simpl in *; [done|].
  eapply elem_of_prefix; [exact Hin | apply Hh].
Qed.

Lemma emits_click (r : role) (h : handle) :
  emits (fun ev => ∃ born now, ev = EvClick r born now) (click r (Some h)).
Proof.
  intros s. exists (EvClick r (h_born h) (navs s)). split; [eauto|].
  cbv [click bind get_navs emit navigated call]. simpl. set_solver.
Qed.

Lemma congo_open_law_store (links : option (list handle)) (i : nat) :
  steps R_store (Congo.open_law links i).
Proof. program_steps. Qed.

Lemma congo_try_visit_clicks (lang : str) (l : list handle) (i : nat) :
  (i < length l)%nat →
  emits (click_on_link i (length l)) (Congo.try_visit_law lang (Some l) i).
Proof.
  intros Hi. destruct (lookup_lt_is_Some_2 l i Hi) as [h Hh].
  unfold Congo.try_visit_law. apply emits_try_except; [|program_steps].
  unfold Congo.visit_law. apply emits_bind_l; [|intros; program_steps].
  unfold Congo.open_law, py_index, py_len. rewrite Hh, !bind_ret_l.
  apply (emits_bind_l (click_on_link i (length l)));
    [apply emits_click | intros; program_steps].
Qed.

Lemma congo_try_visit_returns (lang : str) (links : option (list handle)) (i : nat)
    (s : state) :
  fst (Congo.try_visit_law lang links i s) = Ok tt.
Proof.
  unfold Congo.try_visit_law, try_except.
  by destruct (Congo.visit_law lang links i s) as [[[]|e] s1].
Qed.

Lemma congo_visit_raise (lang : str) (links : option (list handle)) (i : nat)
    (s s1 : state) (e : exn) :
  Congo.visit_law lang links i s = (Raise e, s1) → METADATA s1 = METADATA s.
Proof.
  unfold Congo.visit_law. rewrite bind_run.
  pose proof (congo_open_law_store links i s) as [_ Ho].
  destruct (Congo.open_law links i s) as [[page|e0] s0]; simpl in *.
  - rewrite congo_store_law_run. intros Hs%store_outcome_raise.
    by rewrite Hs.
  - by intros [= _ <-].
Qed.

Lemma congo_loop (lang : str) (l : list handle) (xs : list nat) (s : state) :
  (∀ i, i ∈ xs → (i < length l)%nat) →
  ∃ s', for_in xs (Congo.try_visit_law lang (Some l)) s = (Ok tt, s')
        ∧ ∀ i, i ∈ xs → ∃ ev, click_on_link i (length l) ev ∧ ev ∈ trace s'.
Proof.
  revert s. induction xs as [|x xs IH]; intros s Hxs; simpl.
  - exists s. split; [done|]. by intros i Hi%elem_of_nil.
  - rewrite bind_run.
    pose proof (congo_try_visit_returns lang (Some l) x s) as Hr.
    destruct (congo_try_visit_clicks lang l x (Hxs x ltac:(by left)) s)
      as (ev & Hev & Hin).
    destruct (Congo.try_visit_law lang (Some l) x s) as [[[]|e] s1]; [|done].
    simpl in *.
    destruct (IH s1) as (s' & Hrun & Hclicks); [by intros i Hi; apply Hxs; right|].
    exists s'. split; [done|]. intros i [->|Hi]%elem_of_cons; [|by apply Hclicks].
    exists ev. split; [done|].
    assert (steps R_trace (for_in xs (Congo.try_visit_law lang (Some l)))) as Hst
      by program_steps.
    specialize (Hst s1). rewrite Hrun in Hst. by eapply elem_of_prefix.
Qed.

End FailingVisit.

(** The Belgian script on a site of two laws where the page of the
    first cannot be read: the run ends with the exception of the driver;
    the second law is not clicked and nothing is flushed. *)
Lemma belgium_failing_visit_ends_run :
  let run := Belgium.scrape_belgium_laws (U := Mock.latin1) (H := Mock.host)
               (Some Mock.three_languages) true (Mock.boot Mock.site_first_broken) in
  fst run = Raise (WebDriverException 1)
  ∧ Mock.clicks (trace (snd run))
    = [(SelectCategory (lit "french"), 1, 1); (DocLink 0 2, 3, 3)]%nat
  ∧ milestones (trace (snd run)) = [Selected (lit "french")].
Proof. by vm_compute. Qed.

(** An iteration of the loop of the DRC script never raises;
    when the [try] block raises, [METADATA] is as before the iteration,
    ['Link to law does not work.'] is printed and the loop goes on; from
    any state the loop over a listing of [n] links returns, and every link
    [i < n] has been clicked. *)
Theorem drc_failing_visit_is_skipped {U : Unicode} {D : Driver} {H : Host}
    (lang : str) (l : list handle) :
  (∀ i s, fst (Congo.try_visit_law lang (Some l) i s) = Ok tt)
  ∧ (∀ i s e s1, Congo.visit_law lang (Some l) i s = (Raise e, s1) →
       METADATA s1 = METADATA s
       ∧ Congo.try_visit_law lang (Some l) i s
         = (Ok tt, with_event (EvPrint MsgLinkBroken) s1))
  ∧ (∀ s, ∃ s',
       for_in (seq 0 (length l)) (Congo.try_visit_law lang (Some l)) s = (Ok tt, s')
       ∧ ∀ i, (i < length l)%nat →
           ∃ ev, click_on_link i (length l) ev ∧ ev ∈ trace s').
Proof.
  split; [|split].
  - intros i s. apply congo_try_visit_returns.
  - intros i s e s1 Hv. split; [by eapply congo_visit_raise|].
    unfold Congo.try_visit_law, try_except. by rewrite Hv.
  - intros s.
    destruct (congo_loop lang l (seq 0 (length l)) s) as (s' & Hrun & Hclicks).
    { intros i Hi%elem_of_seq. lia. }
    exists s'. split; [done|]. intros i Hi. apply Hclicks, elem_of_seq. lia.
Qed.

(** The DRC script on a site of three laws where the page of the second cannot be
    read: the run returns, the ledger that is flushed has the records of
    the first and of the third law, in that order. *)
Lemma drc_failing_visit_example :
  let run := Congo.scrape_drc_laws (U := Mock.latin1) (H := Mock.host) true
               (Mock.boot Mock.site_second_broken) in
  fst run = Ok tt
  ∧ map (fun r => take 4 (title r)) (METADATA (snd run)) = [lit "aaaa"; lit "cccc"]
  ∧ Mock.clicks (trace (snd run))
    = [(OpenListing, 1, 1); (DocLink 0 3, 2, 2); (DocLink 1 3, 2, 3);
       (DocLink 2 3, 2, 4)]%nat.
Proof. by vm_compute. Qed.

(** ** A category that cannot be selected *)

Section MissingCategory.
Context {U : Unicode} {D : Driver} {H : Host}.

Lemma for_in_return_app {A} (xs ys : list A) (body : A -> M flow) (s : state) :
  for_in_return (xs ++ ys) body s =
    match for_in_return xs body s with
    | (Ok Next, s1) => for_in_return ys body s1
    | r => r
    end.
Proof.
  revert s. induction xs as [|x xs IH]; intros s; simpl; [done|].
  rewrite !bind_run. destruct (body x s) as [[[|]|e] s1]; [apply IH|done..].
Qed.

Lemma scrape_language_not_found (lang : str) (s s1 : state) :
  (ChromeBot.find_xpath_solo (Belgium.button_xpath lang) s = (Ok None, s1) →
     Belgium.scrape_language lang s = (Ok Return, s1))
  ∧ (∀ e, ChromeBot.find_xpath_solo (Belgium.button_xpath lang) s = (Raise e, s1) →
       Belgium.scrape_language lang s = (Raise e, s1)).
Proof.
  unfold Belgium.scrape_language. rewrite bind_run.
  split; [intros -> | intros e ->]; done.
Qed.

End MissingCategory.

(** The Belgian script on a site without the button of the first of three languages:
    the run returns after the failed lookup; nothing is clicked, so no
    other category is selected, and the trace ends with the message of the
    lookup. *)
Lemma belgium_missing_first_category :
  let run := Belgium.scrape_belgium_laws (U := Mock.latin1) (H := Mock.host)
               (Some Mock.three_languages) true (Mock.boot Mock.site_no_french) in
  fst run = Ok tt
  ∧ trace (snd run) = [EvPrint MsgInitialized; EvPrint (MsgLoaded Belgium.START_URL);
                       EvPrint MsgXpathFailed].
Proof. by vm_compute. Qed.

(** In the Belgian script, when the categories before [lang] have been
    completed and the control of [lang] is not located, the loop over the
    languages ends in the state that the failed lookup leaves, with
    [return] when the lookup yields [None] and with the exception of the
    lookup otherwise; the languages after [lang] play no part. *)
Theorem belgium_missing_category_stops_run {U : Unicode} {D : Driver} {H : Host}
    (pre rest : list str) (lang : str) (s s1 s2 : state) :
  for_in_return pre Belgium.scrape_language s = (Ok Next, s1) →
  (ChromeBot.find_xpath_solo (Belgium.button_xpath lang) s1 = (Ok None, s2) →
     for_in_return (pre ++ lang :: rest) Belgium.scrape_language s = (Ok Return, s2))
  ∧ (∀ e, ChromeBot.find_xpath_solo (Belgium.button_xpath lang) s1 = (Raise e, s2) →
       for_in_return (pre ++ lang :: rest) Belgium.scrape_language s = (Raise e, s2)).
Proof.
  intros Hpre. rewrite for_in_return_app, Hpre. simpl. rewrite bind_run.
  destruct (scrape_language_not_found lang s1 s2) as [Hnone Hraise]. split.
  - intros Hf. by rewrite (Hnone Hf).
  - intros e Hf. by rewrite (Hraise e Hf).
Qed.

(** The same on a site without the button of the second language. *)
Lemma belgium_missing_category_stops_run_witness :
  let s := Mock.boot Mock.site_no_dutch in
  let s1 := snd (for_in_return [lit "french"]
                   (Belgium.scrape_language (U := Mock.latin1) (H := Mock.host)) s) in
  let s2 := snd (ChromeBot.find_xpath_solo (Belgium.button_xpath (lit "dutch")) s1) in
  for_in_return ([lit "french"] ++ lit "dutch" :: [lit "german"])
    (Belgium.scrape_language (U := Mock.latin1) (H := Mock.host)) s = (Ok Return, s2).
Proof.
  intros s s1 s2.
  apply (proj1 (belgium_missing_category_stops_run (U := Mock.latin1) (H := Mock.host)
                  [lit "french"] [lit "german"] (lit "dutch") s s1 s2
                  ltac:(vm_compute; reflexivity))).
  vm_compute. reflexivity.
Defined.

(** ** C1: the links of both scripts *)

Section BothScripts.
Context {U : Unicode} {D : Driver} {H : Host}.
Import ChromeBot.
Open Scope py_scope.

Lemma congo_for_in_returns (lang : str) (links : option (list handle)) (xs : list nat)
    (s : state) :
  fst (for_in xs (Congo.try_visit_law lang links) s) = Ok tt.
Proof.
  revert s. induction xs as [|x xs IH]; intros s; simpl; [done|].
  rewrite bind_run. pose proof (congo_try_visit_returns lang links x s) as Hr.
  destruct (Congo.try_visit_law lang links x s) as [[[]|e] s1]; [apply IH | done].
Qed.

Lemma find_xpath_born (xpath : str) (s s' : state) (l : list handle) :
  find_xpath xpath s = (Ok (Some l), s') →
  navs s' = navs s ∧ Forall (fun h => h_born h = navs s) l.
Proof.
  rewrite find_xpath_run.
  destruct (drv_find_elements xpath (browser s)) as [[es|[]] w]; try done.
  intros [= <- <-]. split; [done|]. apply Forall_forall.
  by intros h (e & -> & _)%list_elem_of_fmap.
Qed.

(** The DRC script after the listing was opened and the links were
    located: one pass over these links. *)
Lemma drc_one_pass (headless : bool) (s s1 s2 : state) (h : handle) (l : list handle) :
  (init headless ;;; navigate_to Congo.START_URL ;;;
   find_xpath_solo Congo.listing_xpath) s = (Ok (Some h), s1) →
  (click OpenListing (Some h) ;;; find_xpath Congo.links_xpath) s1 = (Ok (Some l), s2) →
  Forall (fun h => h_born h = navs s2) l
  ∧ link_clicks (trace (snd (Congo.scrape_drc_laws headless s)))
    = link_clicks (trace s) ++ one_pass (length l) (navs s2) (navs s2).
Proof.
  intros H1 H2.
  assert (R_nolink s s1) as E1.
  { assert (steps R_nolink (init headless ;;; navigate_to Congo.START_URL ;;;
                            find_xpath_solo Congo.listing_xpath)) as Hst by steps_tac.
    specialize (Hst s). by rewrite H1 in Hst. }
  assert (R_nolink s1 s2) as E2.
  { assert (steps R_nolink (click OpenListing (Some h) ;;;
                            find_xpath Congo.links_xpath)) as Hst by steps_tac.
    specialize (Hst s1). by rewrite H2 in Hst. }
  assert (Forall (fun h => h_born h = navs s2) l) as Hb.
  { rewrite bind_run in H2.
    destruct (click OpenListing (Some h) s1) as [[[]|e] sc]; [|discriminate H2].
    apply find_xpath_born in H2 as [-> Hb]. exact Hb. }
  split; [exact Hb|].
  assert (Congo.scrape_drc_laws headless s
          = (for_in (seq 0 (length l)) (Congo.try_visit_law Congo.french (Some l)) ;;;
             Congo.write_metadata_json ;;;
             print (MsgTotal (length l)) ;;;
             print MsgFinished) s2) as ->.
  { unfold Congo.scrape_drc_laws. rewrite bind_run in H1. rewrite bind_run.
    destruct (init headless s) as [[[]|e] s0]; [|discriminate H1].
    rewrite bind_run in H1. rewrite bind_run.
    destruct (navigate_to Congo.START_URL s0) as [[[]|e] s0']; [|discriminate H1].
    rewrite bind_run, H1. rewrite bind_run in H2. rewrite bind_run.
    destruct (click OpenListing (Some h) s1) as [[[]|e] sc]; [|discriminate H2].
    rewrite bind_run, H2. reflexivity. }
  pose proof (steps_after_bind R_nolink
    (for_in (seq 0 (length l)) (Congo.try_visit_law Congo.french (Some l)))
    (fun _ => Congo.write_metadata_json ;;; print (MsgTotal (length l)) ;;;
              print MsgFinished) s2 ltac:(intros ?; cbv beta; steps_tac)) as E3.
  destruct (congo_pass Congo.french l (navs s2) (length l) 0 s2 Hb ltac:(lia))
    as [_ E4].
  unfold R_nolink in *. rewrite E3, E4, E2, E1. reflexivity.
Qed.

End BothScripts.

(** C1, as the code has it.  In a run of [scrape_belgium_laws] every
    element is clicked at the navigation count at which it was located; in
    particular [all_links] is located again after the return to the listing
    and before the next link is clicked.  In a run of [scrape_drc_laws]
    that has opened the listing and located the links [l], all of [l] is
    located at one count, and the clicks on links of the run are one pass
    over [l]: link [i] of that one enumeration is clicked, for every [i],
    at [i] navigations after the enumeration. *)
Theorem link_handles_of_both_scripts {U : Unicode} {D : Driver} {H : Host} :
  (∀ s, trace s = [] → ∀ langs headless,
     events_ok chk_fresh
       (trace (snd (Belgium.scrape_belgium_laws langs headless s))))
  ∧ (∀ headless s h s1 l s2,
       bind (ChromeBot.init headless)
         (fun _ => bind (ChromeBot.navigate_to Congo.START_URL)
            (fun _ => ChromeBot.find_xpath_solo Congo.listing_xpath)) s
       = (Ok (Some h), s1) →
       bind (click OpenListing (Some h))
         (fun _ => ChromeBot.find_xpath Congo.links_xpath) s1
       = (Ok (Some l), s2) →
       Forall (fun h => h_born h = navs s2) l
       ∧ link_clicks (trace (snd (Congo.scrape_drc_laws headless s)))
         = link_clicks (trace s) ++ one_pass (length l) (navs s2) (navs s2)).
Proof.
  split.
  - intros s Ht langs headless.
    apply (events_ok_impl chk_click); [by intros hist e [Hf _]|].
    apply belgium_clicks. unfold clicks_inv. rewrite Ht. apply events_ok_nil.
  - intros headless s h s1 l s2. apply drc_one_pass.
Qed.

(** The same on a site of two laws: the Belgian clicks for three
    languages, and the two clicks of the DRC script, both on links located
    at count 2, the second at count 3. *)
Lemma link_handles_of_both_scripts_witness :
  events_ok chk_fresh
    (trace (snd (Belgium.scrape_belgium_laws (U := Mock.latin1) (H := Mock.host)
                   (Some Mock.three_languages) true (Mock.boot Mock.site_two))))
  ∧ link_clicks
      (trace (snd (Congo.scrape_drc_laws (U := Mock.latin1) (H := Mock.host) true
                     (Mock.boot Mock.site_two))))
    = [(0, 2, 2, 2); (1, 2, 2, 3)]%nat.
Proof.
  split.
  - apply (proj1 (link_handles_of_both_scripts (U := Mock.latin1) (H := Mock.host))
             (Mock.boot Mock.site_two)).
    reflexivity.
  - edestruct (proj2 (link_handles_of_both_scripts (U := Mock.latin1) (H := Mock.host))
                 true (Mock.boot Mock.site_two)) as [_ Hc].
    + vm_compute. reflexivity.
    + vm_compute. reflexivity.
    + rewrite Hc. vm_compute. reflexivity.
Defined.

(** ** C7: the index of the link *)

Section LinkIndex.
Context {U : Unicode} {D : Driver} {H : Host}.
Import ChromeBot.
Open Scope py_scope.

Lemma for_in_var_app {A V} (xs ys : list A) (body : A -> V -> M V) (v : V) (s : state) :
  for_in_var (xs ++ ys) body v s
  = bind (for_in_var xs body v) (for_in_var ys body) s.
Proof.
  revert v s. induction xs as [|x xs IH]; intros v s; simpl; [done|].
  rewrite !bind_run. destruct (body x v s) as [[v'|e] s1]; [apply IH | done].
Qed.

Lemma belgium_visit_short (lang : str) (i : nat) (l : list handle) (s : state) :
  (length l ≤ i)%nat → Belgium.visit_law lang i (Some l) s = (Raise IndexError, s).
Proof.
  intros Hi. unfold Belgium.visit_law, Belgium.open_law.
  rewrite !bind_run. simpl. by rewrite lookup_ge_None_2.
Qed.

(** A visit that returns has clicked on link [i] and on no other. *)
Lemma belgium_visit_index (lang : str) (i : nat) (links v : option (list handle))
    (s s' : state) :
  Belgium.visit_law lang i links s = (Ok v, s') →
  link_indices (trace s') = link_indices (trace s) ++ [i].
Proof.
  destruct links as [l|]; [|by unfold Belgium.visit_law, Belgium.open_law].
  destruct (l !! i) as [h|] eqn:Hh.
  2: { unfold Belgium.visit_law, Belgium.open_law. rewrite !bind_run. simpl.
       by rewrite Hh. }
  set (K := fun _ : unit =>
    law <- (frame2 <- find_xpath_solo Belgium.frame2_xpath ;;
            switch_to_frame frame2 ;;;
            heading <- find_xpath_solo Belgium.title_xpath ;;
            law_title <- text_of heading ;;
            print (MsgFoundLaw (i + 1) (length l) (Some law_title)) ;;;
            text_html <- get_html ;;
            text_soup <- soup text_html ;;
            ret (law_title, text_soup)) ;;
    Belgium.store_law lang (fst law) (snd law) ;;;
    Belgium.back_to_listing).
  assert (Belgium.visit_law lang i (Some l) s
          = bind (click (DocLink i (length l)) (Some h)) K s) as ->.
  { unfold Belgium.visit_law, Belgium.open_law, K.
    change (py_index (Some l) i)
      with (match l !! i with Some x => ret x | None => raise IndexError end).
    change (py_len (Some l)) with (ret (A := nat) (length l)).
    rewrite Hh, !bind_run. unfold ret at 1. cbv beta iota. rewrite !bind_run.
    unfold ret at 1. cbv beta iota. rewrite !bind_run.
    by destruct (click (DocLink i (length l)) (Some h) s) as [[[]|e] s1]. }
  intros Hrun.
  assert (∀ x, steps R_nolink (K x)) as HK.
  { intros x. unfold K, Belgium.back_to_listing. steps_tac. }
  pose proof (steps_after_bind R_nolink
                (click (DocLink i (length l)) (Some h)) K s HK) as E.
  rewrite Hrun in E. unfold R_nolink in E.
  change (snd (Ok v, s')) with s' in E.
  destruct (clicks_once_click i (length l) h s) as [_ Hc].
  unfold link_indices. rewrite E, Hc, map_app. reflexivity.
Qed.

Lemma belgium_loop_indices (lang : str) (k a : nat) (links v : option (list handle))
    (s s' : state) :
  for_in_var (seq a k) (Belgium.visit_law lang) links s = (Ok v, s') →
  link_indices (trace s') = link_indices (trace s) ++ seq a k.
Proof.
  revert a links s. induction k as [|k IH]; intros a links s; simpl.
  - intros [= _ <-]. by rewrite app_nil_r.
  - rewrite bind_run.
    destruct (Belgium.visit_law lang a links s) as [[v1|e] s1] eqn:Hv; [|done].
    intros Hrest. rewrite (IH _ _ _ Hrest), (belgium_visit_index _ _ _ _ _ _ Hv).
    by rewrite <- app_assoc.
Qed.

(** [scrape_language] once the category was selected and its links were
    located: the loop over the indices of this first enumeration. *)
Lemma scrape_language_enumerated (lang : str) (s s1 s2 : state) (h : handle)
    (l0 : list handle) :
  find_xpath_solo (Belgium.button_xpath lang) s = (Ok (Some h), s1) →
  (click (SelectCategory lang) (Some h) ;;;
   frame1 <- find_xpath_solo Belgium.frame2_xpath ;;
   switch_to_frame frame1 ;;;
   find_xpath Belgium.links_xpath) s1 = (Ok (Some l0), s2) →
  Belgium.scrape_language lang s
  = (for_in_var (seq 0 (length l0)) (Belgium.visit_law lang) (Some l0) ;;;
     Belgium.write_metadata_json ;;;
     ret Next) (with_event (EvPrint (MsgLawsOnPage (length l0))) s2)
  ∧ R_nolink s s2.
Proof.
  intros H1 H2. split.
  - unfold Belgium.scrape_language. rewrite bind_run, H1.
    rewrite bind_run in H2. rewrite bind_run.
    destruct (click (SelectCategory lang) (Some h) s1) as [[[]|e] sa]; [|discriminate H2].
    rewrite bind_run in H2. rewrite bind_run.
    destruct (find_xpath_solo Belgium.frame2_xpath sa) as [[f|e] sb]; [|discriminate H2].
    rewrite bind_run in H2. rewrite bind_run.
    destruct (switch_to_frame f sb) as [[[]|e] sc]; [|discriminate H2].
    rewrite bind_run, H2. reflexivity.
  - assert (steps R_nolink (find_xpath_solo (Belgium.button_xpath lang))) as Ha
      by steps_tac.
    assert (steps R_nolink (click (SelectCategory lang) (Some h) ;;;
                            frame1 <- find_xpath_solo Belgium.frame2_xpath ;;
                            switch_to_frame frame1 ;;;
                            find_xpath Belgium.links_xpath)) as Hb by steps_tac.
    specialize (Ha s). specialize (Hb s1). rewrite H1 in Ha. rewrite H2 in Hb.
    unfold R_nolink in *. simpl in *. congruence.
Qed.

Lemma link_indices_nolink (s s' : state) :
  R_nolink s s' → link_indices (trace s') = link_indices (trace s).
Proof. unfold R_nolink, link_indices. by intros ->. Qed.

Lemma belgium_run_raises (pre rest : list str) (lang : str) (headless : bool)
    (s s0 sk s' : state) (e : exn) :
  (init headless ;;; navigate_to Belgium.START_URL ;;; wait_sec 5) s = (Ok tt, s0) →
  for_in_return pre Belgium.scrape_language s0 = (Ok Next, sk) →
  Belgium.scrape_language lang sk = (Raise e, s') →
  Belgium.scrape_belgium_laws (Some (pre ++ lang :: rest)) headless s = (Raise e, s').
Proof.
  intros H0 Hpre Hl. unfold Belgium.scrape_belgium_laws.
  rewrite bind_run in H0. rewrite bind_run.
  destruct (init headless s) as [[[]|e0] sa]; [|discriminate H0].
  rewrite bind_run in H0. rewrite bind_run.
  destruct (navigate_to Belgium.START_URL sa) as [[[]|e0] sb]; [|discriminate H0].
  rewrite bind_run, H0. rewrite bind_run, for_in_return_app, Hpre. simpl.
  rewrite bind_run, Hl. reflexivity.
Qed.

End LinkIndex.


(** * Further properties of the code *)

(** ** The wrapper methods *)

Section Wrappers.
Context {D : Driver} {H : Host}.
Import ChromeBot.

(** [navigate_to] never raises: whatever [driver.get] does, the call
    returns, counts as one navigation, leaves the files and the ledger
    alone, and prints one line that tells whether the page was loaded. *)
Theorem navigate_to_never_raises (url : str) (s : state) :
  navigate_to url s
  = (Ok tt,
     with_event (EvPrint (if is_ok (fst (drv_get url (browser s)))
                          then MsgLoaded url else MsgNoAccess url))
       (with_browser (snd (drv_get url (browser s))) (with_navs (S (navs s)) s))).
Proof.
  cbv [navigate_to try_except bind navigated call print emit].
  change (browser (with_navs (S (navs s)) s)) with (browser s).
  by destruct (drv_get url (browser s)) as [[[]|e] w].
Qed.

(** [find_xpath_solo] returns [None] exactly when the driver raises
    [IndexError]; every other exception of the driver goes on to the
    caller, and an element that is found is returned with the current
    navigation count. The driver's own "no such element" exception is
    therefore not turned into [None]. *)
Theorem find_xpath_solo_outcomes (xpath : str) (s : state) :
  (fst (find_xpath_solo xpath s) = Ok None
   ↔ fst (drv_find_element xpath (browser s)) = Raise IndexError)
  ∧ (∀ e, e ≠ IndexError →
       fst (drv_find_element xpath (browser s)) = Raise e →
       find_xpath_solo xpath s
       = (Raise e, with_browser (snd (drv_find_element xpath (browser s))) s))
  ∧ (∀ el, fst (drv_find_element xpath (browser s)) = Ok el →
       find_xpath_solo xpath s
       = (Ok (Some {| h_el := el; h_born := navs s |}),
          with_browser (snd (drv_find_element xpath (browser s))) s)).
Proof.
  rewrite find_xpath_solo_run.
  destruct (drv_find_element xpath (browser s)) as [[el|e] w]; simpl.
  - split; [split; intros [=]|]. split; [by intros e _|]. by intros ? [= <-].
  - split; [|split].
    + destruct e; simpl; split; by intros [=].
    + intros e' Hne [= <-]. by destruct e.
    + by intros el.
Qed.

(** [find_xpath] has the same outcomes; a list that is found keeps the
    order and the length of the driver's list. *)
Theorem find_xpath_outcomes (xpath : str) (s : state) :
  (fst (find_xpath xpath s) = Ok None
   ↔ fst (drv_find_elements xpath (browser s)) = Raise IndexError)
  ∧ (∀ e, e ≠ IndexError →
       fst (drv_find_elements xpath (browser s)) = Raise e →
       fst (find_xpath xpath s) = Raise e)
  ∧ (∀ els, fst (drv_find_elements xpath (browser s)) = Ok els →
       ∃ l, fst (find_xpath xpath s) = Ok (Some l)
            ∧ map h_el l = els ∧ length l = length els
            ∧ Forall (fun h => h_born h = navs s) l).
Proof.
  rewrite find_xpath_run.
  destruct (drv_find_elements xpath (browser s)) as [[els|e] w]; simpl.
  - split; [split; intros [=]|]. split; [by intros e _|]. intros ? [= <-].
    eexists. split; [done|]. rewrite map_map, length_map. simpl.
    split; [by rewrite map_id|]. split; [done|].
    apply Forall_map. by apply Forall_true.
  - split; [|split].
    + destruct e; simpl; split; by intros [=].
    + intros e' Hne [= <-]. by destruct e.
    + by intros els.
Qed.

End Wrappers.

(** ** The ledger and the files over a whole run *)

Section RunFrames.
Context {U : Unicode} {D : Driver} {H : Host}.

#[export] Instance R_meta_frame : Frame R_meta.
Proof.
  split; unfold R_meta; simpl; try done. intros ???. apply transitivity.
Qed.

#[export] Instance R_keep_frame (mp : str) : Frame (R_keep mp).
Proof. split; unfold R_keep; simpl; auto. Qed.

#[export] Instance R_unique_frame : Frame R_unique.
Proof. split; unfold R_unique, unique_inv; simpl; auto. Qed.

#[export] Instance R_fields_frame (ok : record -> Prop) : Frame (R_fields ok).
Proof. split; unfold R_fields; simpl; auto. Qed.

Lemma click_ok_meta (r : role) : click_ok R_meta r.
Proof. intros s b. unfold R_meta. simpl. reflexivity. Qed.
Lemma click_ok_keep (mp : str) (r : role) : click_ok (R_keep mp) r.
Proof. intros s b p f. done. Qed.
Lemma click_ok_unique (r : role) : click_ok R_unique r.
Proof. intros s b Hs. done. Qed.
Lemma click_ok_fields (ok : record -> Prop) (r : role) : click_ok (R_fields ok) r.
Proof. intros s b Hs. done. Qed.

Lemma store_outcome_meta (p : str) (r : record) (text : str) (s : state) :
  R_meta s (snd (store_outcome p r text s)).
Proof.
  unfold store_outcome, R_meta.
  destruct (bool_decide _), (openable p), (encodable text); simpl; try done.
  by apply prefix_app_r.
Qed.

Lemma store_outcome_keep (mp p : str) (r : record) (text : str) (s : state) :
  R_keep mp s (snd (store_outcome p r text s)).
Proof.
  unfold store_outcome, R_keep.
  destruct (bool_decide _) eqn:E; [done|].
  apply bool_decide_eq_false in E.
  destruct (openable p), (encodable text); simpl; try done.
  all: intros q f _ Hq; rewrite lookup_insert_ne; [done|];
    intros ->; apply E; eauto.
Qed.

Lemma store_outcome_unique (p : str) (r : record) (text : str) (s : state) :
  download_path r = p → R_unique s (snd (store_outcome p r text s)).
Proof.
  intros Hr. unfold store_outcome, R_unique, unique_inv.
  destruct (bool_decide _) eqn:E; [done|].
  apply bool_decide_eq_false in E.
  assert (∀ (f : file) (q : str), is_Some (fs s !! q) → is_Some (<[p := f]> (fs s) !! q))
    as Hins.
  { intros f q Hq. destruct (decide (p = q)) as [->|Hne];
      [rewrite lookup_insert_eq; eauto | by rewrite lookup_insert_ne]. }
  destruct (openable p), (encodable text); simpl; try done.
  - intros [Hnd Hon]. split.
    + rewrite map_app. simpl. apply NoDup_app. split; [done|]. split.
      * intros q Hq [->|[]%elem_of_nil]%elem_of_cons.
        apply list_elem_of_fmap in Hq as (r' & Hq & Hr').
        apply E. rewrite <- Hr, Hq. by apply Hon.
      * apply NoDup_singleton.
    + intros r' [Hr'|Hr'%list_elem_of_singleton]%elem_of_app.
      * by apply Hins, Hon.
      * subst r'. rewrite Hr, lookup_insert_eq. eauto.
  - intros [Hnd Hon]. split; [done|]. intros r' Hr'. by apply Hins, Hon.
Qed.

Lemma store_outcome_fields (ok : record -> Prop) (p : str) (r : record) (text : str)
    (s : state) :
  ok r → R_fields ok s (snd (store_outcome p r text s)).
Proof.
  intros Hr. unfold store_outcome, R_fields.
  destruct (bool_decide _), (openable p), (encodable text); simpl; try done.
  intros Hs. apply Forall_app. split; [done|]. by apply Forall_singleton.
Qed.

Lemma flushed_meta (mp : str) (s : state) : R_meta s (flushed mp s).
Proof. unfold R_meta. simpl. reflexivity. Qed.

Lemma flushed_keep (mp : str) (s : state) : R_keep mp s (flushed mp s).
Proof. intros p f Hne Hp. simpl. by rewrite lookup_insert_ne. Qed.

Lemma flushed_unique (mp : str) (s : state) : R_unique s (flushed mp s).
Proof.
  intros [Hnd Hon]. split; [done|]. simpl. intros r Hr.
  destruct (decide (mp = download_path r)) as [->|Hne];
    [rewrite lookup_insert_eq; eauto | rewrite lookup_insert_ne; auto].
Qed.

Lemma flushed_fields (ok : record -> Prop) (mp : str) (s : state) :
  R_fields ok s (flushed mp s).
Proof. by intros Hs. Qed.

Lemma belgium_store_meta l t x : steps R_meta (Belgium.store_law l t x).
Proof. store_steps store_outcome_meta. Qed.
Lemma belgium_store_keep mp l t x : steps (R_keep mp) (Belgium.store_law l t x).
Proof. store_steps store_outcome_keep. Qed.
Lemma belgium_store_unique l t x : steps R_unique (Belgium.store_law l t x).
Proof. store_steps store_outcome_unique. Qed.
Lemma belgium_store_fields l t x :
  steps (R_fields belgium_shape) (Belgium.store_law l t x).
Proof. store_steps store_outcome_fields. Qed.

Lemma congo_store_meta l u x : steps R_meta (Congo.store_law l u x).
Proof. store_steps store_outcome_meta. Qed.
Lemma congo_store_keep mp l u x : steps (R_keep mp) (Congo.store_law l u x).
Proof. store_steps store_outcome_keep. Qed.
Lemma congo_store_unique l u x : steps R_unique (Congo.store_law l u x).
Proof. store_steps store_outcome_unique. Qed.
Lemma congo_store_fields u x :
  steps (R_fields congo_shape) (Congo.store_law Congo.french u x).
Proof. store_steps store_outcome_fields. by repeat split. Qed.

Lemma belgium_flush_meta : steps R_meta Belgium.write_metadata_json.
Proof. flush_steps flushed_meta. Qed.
Lemma belgium_flush_keep :
  steps (R_keep (os_path_join here Belgium.METADATA_PATH)) Belgium.write_metadata_json.
Proof. flush_steps flushed_keep. Qed.
Lemma belgium_flush_unique : steps R_unique Belgium.write_metadata_json.
Proof. flush_steps flushed_unique. Qed.
Lemma belgium_flush_fields ok : steps (R_fields ok) Belgium.write_metadata_json.
Proof. flush_steps flushed_fields. Qed.

Lemma congo_flush_meta : steps R_meta Congo.write_metadata_json.
Proof. flush_steps flushed_meta. Qed.
Lemma congo_flush_keep :
  steps (R_keep (os_path_join here Congo.METADATA_PATH)) Congo.write_metadata_json.
Proof. flush_steps flushed_keep. Qed.
Lemma congo_flush_unique : steps R_unique Congo.write_metadata_json.
Proof. flush_steps flushed_unique. Qed.
Lemma congo_flush_fields ok : steps (R_fields ok) Congo.write_metadata_json.
Proof. flush_steps flushed_fields. Qed.

End RunFrames.

#[export] Hint Resolve click_ok_meta click_ok_keep click_ok_unique click_ok_fields
  belgium_store_meta belgium_store_keep belgium_store_unique belgium_store_fields
  congo_store_meta congo_store_keep congo_store_unique congo_store_fields
  belgium_flush_meta belgium_flush_keep belgium_flush_unique belgium_flush_fields
  congo_flush_meta congo_flush_keep congo_flush_unique congo_flush_fields : steps.

Section RunInvariants.
Context {U : Unicode} {D : Driver} {H : Host}.

(** The ledger is append-only over a whole run of either script: the
    records that [METADATA] holds at the start are, unchanged and in the
    same order, the first records of [METADATA] at the end, also when the
    run ends with an exception. *)
Theorem ledger_is_append_only (s : state) :
  (∀ langs headless,
     METADATA s `prefix_of` METADATA (snd (Belgium.scrape_belgium_laws langs headless s)))
  ∧ (∀ headless, METADATA s `prefix_of` METADATA (snd (Congo.scrape_drc_laws headless s))).
Proof.
  split; intros.
  - assert (steps R_meta (Belgium.scrape_belgium_laws langs headless)) as Hst
      by program_steps.
    apply Hst.
  - assert (steps R_meta (Congo.scrape_drc_laws headless)) as Hst by program_steps.
    apply Hst.
Qed.

(** No run removes a file, and no run changes a file that exists, except
    the metadata file of the script: a law that was downloaded before is
    never overwritten. *)
Theorem downloads_are_never_overwritten (s : state) (p : str) (f : file) :
  fs s !! p = Some f →
  (∀ langs headless, p ≠ os_path_join here Belgium.METADATA_PATH →
     fs (snd (Belgium.scrape_belgium_laws langs headless s)) !! p = Some f)
  ∧ (∀ headless, p ≠ os_path_join here Congo.METADATA_PATH →
       fs (snd (Congo.scrape_drc_laws headless s)) !! p = Some f).
Proof.
  intros Hp. split; intros.
  - assert (steps (R_keep (os_path_join here Belgium.METADATA_PATH))
              (Belgium.scrape_belgium_laws langs headless)) as Hst by program_steps.
    by apply Hst.
  - assert (steps (R_keep (os_path_join here Congo.METADATA_PATH))
              (Congo.scrape_drc_laws headless)) as Hst by program_steps.
    by apply Hst.
Qed.

(** In a process that starts with an empty [METADATA], no two records of
    the ledger have the same [download_path], and the file of every record
    is on disk; this holds for both scripts and for every outcome of the
    run. *)
Theorem ledger_paths_are_unique (s : state) :
  METADATA s = [] →
  (∀ langs headless,
     unique_inv (snd (Belgium.scrape_belgium_laws langs headless s)))
  ∧ (∀ headless, unique_inv (snd (Congo.scrape_drc_laws headless s))).
Proof.
  intros Hm.
  assert (unique_inv s) as Hs.
  { unfold unique_inv. rewrite Hm. split; [constructor|]. by intros r Hr%elem_of_nil. }
  split; intros.
  - assert (steps R_unique (Belgium.scrape_belgium_laws langs headless)) as Hst
      by program_steps.
    by apply Hst.
  - assert (steps R_unique (Congo.scrape_drc_laws headless)) as Hst by program_steps.
    by apply Hst.
Qed.

(** In a process that starts with an empty [METADATA], every record of the
    Belgian script has the constant link of the script, today's date, the
    country and the path of its own title and language; every record of
    the DRC script has the language ['french'], the country ['DRC'] and
    today's date. *)
Theorem ledger_records_have_the_shape (s : state) :
  METADATA s = [] →
  (∀ langs headless,
     Forall belgium_shape (METADATA (snd (Belgium.scrape_belgium_laws langs headless s))))
  ∧ (∀ headless, Forall congo_shape (METADATA (snd (Congo.scrape_drc_laws headless s)))).
Proof.
  intros Hm. split; intros.
  - assert (steps (R_fields belgium_shape) (Belgium.scrape_belgium_laws langs headless))
      as Hst by program_steps.
    apply Hst. rewrite Hm. constructor.
  - assert (steps (R_fields congo_shape) (Congo.scrape_drc_laws headless)) as Hst
      by program_steps.
    apply Hst. rewrite Hm. constructor.
Qed.

End RunInvariants.

(** A run of the Belgian script over a directory that has the file of the
    first law: the file keeps its old content. *)
Lemma downloads_are_never_overwritten_witness :
  fs (snd (Belgium.scrape_belgium_laws (U := Mock.latin1) (H := Mock.host)
             (Some Mock.three_languages) true
             (Mock.boot_on Mock.site_two Mock.old_files))) !! Mock.old_download
  = Some (TextFile (lit "old")).
Proof.
  apply (proj1 (downloads_are_never_overwritten (U := Mock.latin1) (H := Mock.host)
                  (Mock.boot_on Mock.site_two Mock.old_files) Mock.old_download
                  (TextFile (lit "old")) ltac:(vm_compute; reflexivity))).
  vm_compute. discriminate.
Defined.

(** The ledgers of the test site. *)
Lemma ledger_paths_are_unique_witness :
  unique_inv (snd (Congo.scrape_drc_laws (U := Mock.latin1) (H := Mock.host) true
                     (Mock.boot Mock.site_second_broken))).
Proof.
  apply (proj2 (ledger_paths_are_unique (U := Mock.latin1) (H := Mock.host)
                  (Mock.boot Mock.site_second_broken) ltac:(reflexivity))).
Defined.

Lemma ledger_records_have_the_shape_witness :
  Forall (belgium_shape (U := Mock.latin1) (H := Mock.host))
    (METADATA (snd (Belgium.scrape_belgium_laws (U := Mock.latin1) (H := Mock.host)
                      (Some Mock.three_languages) true (Mock.boot Mock.site_two)))).
Proof.
  apply (proj1 (ledger_records_have_the_shape (U := Mock.latin1) (H := Mock.host)
                  (Mock.boot Mock.site_two) ltac:(reflexivity))).
Defined.

(** ** The ledger file *)

Section LedgerFile.
Context {U : Unicode} {D : Driver} {H : Host}.
Open Scope py_scope.

(** [write_metadata_json] dumps the whole current [METADATA]: when the
    metadata file can be opened, the file holds exactly the ledger of that
    moment, whatever it held before, and nothing else changes; when it
    cannot be opened, the call raises [OSError] and changes nothing. *)
Theorem write_metadata_json_dumps_the_ledger (s : state) :
  let bp := os_path_join here Belgium.METADATA_PATH in
  let cp := os_path_join here Congo.METADATA_PATH in
  (if openable bp then
     fst (Belgium.write_metadata_json s) = Ok tt
     ∧ fs (snd (Belgium.write_metadata_json s)) = <[bp := JsonFile (METADATA s)]> (fs s)
     ∧ METADATA (snd (Belgium.write_metadata_json s)) = METADATA s
   else Belgium.write_metadata_json s = (Raise OSError, s))
  ∧ (if openable cp then
       fst (Congo.write_metadata_json s) = Ok tt
       ∧ fs (snd (Congo.write_metadata_json s)) = <[cp := JsonFile (METADATA s)]> (fs s)
       ∧ METADATA (snd (Congo.write_metadata_json s)) = METADATA s
     else Congo.write_metadata_json s = (Raise OSError, s)).
Proof.
  intros bp cp. rewrite belgium_flush_run, congo_flush_run. fold bp cp.
  by destruct (openable bp), (openable cp).
Qed.

(** An entry that is appended is the last record of the next dump: after
    [append_to_metadata] and [write_metadata_json], the metadata file holds
    the old ledger followed by the new record, with the given title, link,
    path and language, today's date and the country of the script. *)
Theorem appended_record_is_dumped (law_name a_link filename lang : str) (s : state) :
  let bp := os_path_join here Belgium.METADATA_PATH in
  let cp := os_path_join here Congo.METADATA_PATH in
  (openable bp = true →
     fs (snd ((Belgium.append_to_metadata law_name a_link filename lang ;;;
               Belgium.write_metadata_json) s)) !! bp
     = Some (JsonFile (METADATA s ++
               [{| title := law_name; link := a_link; download_path := filename;
                   download_date := today; language := lang;
                   country := Belgium.COUNTRY |}])))
  ∧ (openable cp = true →
       fs (snd ((Congo.append_to_metadata law_name a_link filename lang ;;;
                 Congo.write_metadata_json) s)) !! cp
       = Some (JsonFile (METADATA s ++
                 [{| title := law_name; link := a_link; download_path := filename;
                     download_date := today; language := lang;
                     country := Congo.COUNTRY |}]))).
Proof.
  intros bp cp. split; intros Ho.
  - rewrite bind_run. unfold Belgium.append_to_metadata at 1.
    cbv [bind get_metadata set_metadata emit print]. rewrite belgium_flush_run.
    fold bp. rewrite Ho. simpl. by rewrite lookup_insert_eq.
  - rewrite bind_run. unfold Congo.append_to_metadata at 1.
    cbv [bind get_metadata set_metadata emit print]. rewrite congo_flush_run.
    fold cp. rewrite Ho. simpl. by rewrite lookup_insert_eq.
Qed.

(** [create_destination_file] changes neither the files nor the ledger,
    and when it returns, it returns [None] exactly when the destination
    exists, and otherwise the destination, which is then a path without a
    file. *)
Theorem create_destination_file_outcomes (a b type lang : str) (s : state) :
  let bp := Belgium.destination_path a type lang in
  let cp := Congo.destination_path a b type lang in
  (R_store s (snd (Belgium.create_destination_file a type lang s))
   ∧ ∀ v, fst (Belgium.create_destination_file a type lang s) = Ok v →
       v = (if bool_decide (is_Some (fs s !! bp)) then None else Some bp)
       ∧ ∀ p, v = Some p → fs s !! p = None)
  ∧ (R_store s (snd (Congo.create_destination_file a b type lang s))
     ∧ ∀ v, fst (Congo.create_destination_file a b type lang s) = Ok v →
         v = (if bool_decide (is_Some (fs s !! cp)) then None else Some cp)
         ∧ ∀ p, v = Some p → fs s !! p = None).
Proof.
  intros bp cp. split.
  - unfold Belgium.create_destination_file. fold bp.
    rewrite bind_run, path_exists_run.
    destruct (bool_decide (is_Some (fs s !! bp))) eqn:E; simpl.
    + split; [by split|]. intros v [= <-]. split; [done|]. intros p Hp. discriminate.
    + split; [by split|]. intros v [= <-]. split; [done|]. intros p [= <-].
      apply bool_decide_eq_false in E. by apply eq_None_not_Some.
  - assert (Congo.create_destination_file a b type lang s
            = let s0 := with_event (EvPrint (MsgTitle (prefix 200 (normalize a)))) s in
              if bool_decide (is_Some (fs s !! cp))
              then (Ok None, with_event (EvPrint (MsgAlready cp)) s0)
              else (Ok (Some cp), s0)) as ->.
    { unfold Congo.create_destination_file. fold cp.
      rewrite bind_run. unfold print at 1, emit at 1. cbv beta iota.
      rewrite bind_run, path_exists_run. simpl.
      by destruct (bool_decide (is_Some (fs s !! cp))). }
    destruct (bool_decide (is_Some (fs s !! cp))) eqn:E; simpl.
    + split; [by split|]. intros v [= <-]. split; [done|]. intros p Hp. discriminate.
    + split; [by split|]. intros v [= <-]. split; [done|]. intros p [= <-].
      apply bool_decide_eq_false in E. by apply eq_None_not_Some.
Qed.

End LedgerFile.

(** The dump after an append, on the test host. *)
Lemma appended_record_is_dumped_witness :
  ∃ l, fs (snd ((bind (Belgium.append_to_metadata (H := Mock.host)
                         (lit "Loi A") (lit "link") (lit "a.txt") (lit "french"))
                   (fun _ => Belgium.write_metadata_json (H := Mock.host)))
                  (Mock.boot Mock.site_two)))
         !! os_path_join (here (Host := Mock.host)) Belgium.METADATA_PATH
       = Some (JsonFile l)
       ∧ length l = 1%nat.
Proof.
  eexists. split.
  - apply (proj1 (appended_record_is_dumped (H := Mock.host)
                    (lit "Loi A") (lit "link") (lit "a.txt") (lit "french")
                    (Mock.boot Mock.site_two))).
    reflexivity.
  - reflexivity.
Defined.

(** ** File names *)

Section FileNames.
Context {U : Unicode}.

Lemma is_word_ascii_lower (c : N) : is_word (ascii_lower c) = is_word c.
Proof.
  unfold ascii_lower. destruct (N.leb_spec 65 c), (N.leb_spec c 90); simpl; try done.
  unfold is_word, is_ascii, ascii_isalnum, underscore.
  assert ((c + 32 <? 128) = true) as -> by (apply N.ltb_lt; lia).
  assert ((c <? 128) = true) as -> by (apply N.ltb_lt; lia).
  assert ((c + 32 =? 95) = false) as -> by (apply N.eqb_neq; lia).
  assert ((c =? 95) = false) as -> by (apply N.eqb_neq; lia).
  assert ((97 <=? c + 32) = true) as -> by (apply N.leb_le; lia).
  assert ((c + 32 <=? 122) = true) as -> by (apply N.leb_le; lia).
  assert ((65 <=? c) = true) as -> by (apply N.leb_le; lia).
  assert ((c <=? 90) = true) as -> by (apply N.leb_le; lia).
  simpl. by rewrite !orb_true_r.
Qed.

Lemma ascii_lower_space (c : N) : (ascii_lower c =? space) = (c =? space).
Proof.
  unfold ascii_lower, space.
  destruct (N.leb_spec 65 c), (N.leb_spec c 90); simpl; try done.
  destruct (N.eqb_spec (c + 32) 32), (N.eqb_spec c 32); try done; lia.
Qed.

Lemma ascii_lower_idem (c : N) : ascii_lower (ascii_lower c) = ascii_lower c.
Proof.
  unfold ascii_lower.
  destruct (N.leb_spec 65 c), (N.leb_spec c 90); simpl; try done.
  - destruct (N.leb_spec 65 (c + 32)), (N.leb_spec (c + 32) 90); simpl; try done; lia.
  - destruct (N.leb_spec 65 c), (N.leb_spec c 90); simpl; try done; lia.
  - destruct (N.leb_spec 65 c), (N.leb_spec c 90); simpl; try done; lia.
  - destruct (N.leb_spec 65 c), (N.leb_spec c 90); simpl; try done; lia.
Qed.

Lemma is_ascii_lower (c : N) : is_ascii (ascii_lower c) = is_ascii c.
Proof.
  unfold ascii_lower, is_ascii.
  destruct (N.leb_spec 65 c), (N.leb_spec c 90); simpl; try done.
  destruct (N.ltb_spec (c + 32) 128), (N.ltb_spec c 128); try done; lia.
Qed.

Lemma sub_nonword_runs_from_lower (b : bool) (s : str) :
  sub_nonword_runs_from b (map ascii_lower s) = map ascii_lower (sub_nonword_runs_from b s).
Proof.
  revert b. induction s as [|c s IH]; intros b; simpl; [done|].
  rewrite is_word_ascii_lower. destruct (is_word c); simpl; [by rewrite IH|].
  destruct b; [done|]. simpl. by rewrite IH.
Qed.

Lemma sub_space_hyphen_lower (s : str) :
  sub_space_hyphen (map ascii_lower s) = map ascii_lower (sub_space_hyphen s).
Proof.
  unfold sub_space_hyphen. rewrite !map_map. apply map_ext. intros c.
  rewrite ascii_lower_space. by destruct (c =? space).
Qed.

Lemma normalize_lower (s : str) :
  Forall (fun c => is_ascii c = true) s → normalize (map ascii_lower s) = normalize s.
Proof.
  intros Hs.
  assert (Forall (fun c => is_ascii c = true) (map ascii_lower s)) as Hs'.
  { apply Forall_map. eapply Forall_impl; [exact Hs|]. intros c Hc. simpl.
    by rewrite is_ascii_lower. }
  destruct (normalize_ascii _ Hs) as (-> & _ & _).
  destruct (normalize_ascii _ Hs') as (-> & _ & _).
  unfold sub_nonword_runs. rewrite sub_nonword_runs_from_lower, sub_space_hyphen_lower.
  rewrite map_map. apply map_ext. intros c. apply ascii_lower_idem.
Qed.

(** Two ASCII titles that differ only in the case of their letters get the
    same file name, hence the same destination: the second is taken to be
    downloaded already. *)
Theorem filename_maker_ignores_case (s t : str) :
  forallb is_ascii s = true → forallb is_ascii t = true →
  map ascii_lower s = map ascii_lower t →
  Belgium.filename_maker s = Belgium.filename_maker t
  ∧ ∀ type lang, Belgium.generate_file_name s type lang
                 = Belgium.generate_file_name t type lang.
Proof.
  intros Hs Ht Hst.
  assert (∀ u, forallb is_ascii u = true → Forall (fun c => is_ascii c = true) u) as Hf.
  { intros u Hu. apply Forall_forall. intros c Hc%list_elem_of_In.
    by apply (proj1 (forallb_forall _ _) Hu). }
  assert (Belgium.filename_maker s = Belgium.filename_maker t) as E.
  { unfold Belgium.filename_maker.
    rewrite <- (normalize_lower s), <- (normalize_lower t) by auto. by rewrite Hst. }
  split; [done|]. intros type lang. unfold Belgium.generate_file_name. by rewrite E.
Qed.

Lemma normalize_prefix_class (n : nat) (s : str) (c : N) :
  forallb is_ascii s = true → c ∈ prefix n (normalize s) →
  in_az09_hyphen_underscore c = true.
Proof.
  intros Ha Hin.
  assert (Forall (fun c => is_ascii c = true) s) as Hs.
  { apply Forall_forall. intros d Hd%list_elem_of_In.
    by apply (proj1 (forallb_forall _ _) Ha). }
  destruct (normalize_ascii _ Hs) as (E & Hc & _).
  rewrite prefix_take in Hin.
  apply elem_of_take in Hin as (i & Hin & _). apply list_elem_of_lookup_2 in Hin.
  rewrite E in Hin. apply list_elem_of_fmap in Hin as (d & -> & Hd).
  apply ascii_lower_class. rewrite Forall_forall in Hc. by apply Hc.
Qed.

(** The file name made from an ASCII title, and the identifier made from
    ASCII slices of a text, contain neither ['/'] nor ['.'], so the name
    cannot leave the directory [DOWNLOAD_PATH/language/type/] that the
    scripts put it in. *)
Theorem file_name_has_no_separator (law_name law_text : str) :
  forallb is_ascii law_name = true → forallb is_ascii law_text = true →
  (slash ∉ Belgium.filename_maker law_name)
  ∧ (46 ∉ Belgium.filename_maker law_name)
  ∧ (slash ∉ Congo.identifier law_name law_text)
  ∧ (46 ∉ Congo.identifier law_name law_text).
Proof.
  intros Ha Hb.
  assert (∀ c, c ∈ Belgium.filename_maker law_name →
            in_az09_hyphen_underscore c = true) as Hname.
  { intros c. by apply normalize_prefix_class. }
  assert (∀ c, c ∈ Congo.identifier law_name law_text →
            in_az09_hyphen_underscore c = true) as Hid.
  { intros c Hin. unfold Congo.identifier in Hin.
    apply elem_of_app in Hin as [Hin|Hin];
      [exact (normalize_prefix_class _ _ _ Ha Hin)
      |exact (normalize_prefix_class _ _ _ Hb Hin)]. }
  repeat split; first [intros Hin%Hname | intros Hin%Hid]; by vm_compute in Hin.
Qed.

End FileNames.

(** Titles of the test site that differ in case. *)
Lemma filename_maker_ignores_case_witness :
  Belgium.filename_maker (U := Mock.latin1) (lit "LOI A") =
  Belgium.filename_maker (U := Mock.latin1) (lit "Loi a").
Proof.
  apply (filename_maker_ignores_case (U := Mock.latin1) (lit "LOI A") (lit "Loi a"));
    reflexivity.
Defined.

Lemma file_name_has_no_separator_witness :
  slash ∉ Belgium.filename_maker (U := Mock.latin1) (lit "../../etc/passwd").
Proof.
  apply (file_name_has_no_separator (U := Mock.latin1) (lit "../../etc/passwd") []);
    reflexivity.
Defined.

(** ** The script as it is written, and edge cases of the drivers *)

Section AsWritten.
Context {U : Unicode} {D : Driver} {H : Host}.
Import ChromeBot.
Open Scope py_scope.

(** The XPath of the button of a language holds the label that [LANGUAGES]
    has for it; for a language that is not a key of [LANGUAGES],
    [LANGUAGES.get] gives [None] and the XPath asks for the value
    ['None']. *)
Theorem button_xpath_of_unknown_language (lang : str) :
  lang ≠ lit "french" → lang ≠ lit "dutch" → lang ≠ lit "german" →
  Belgium.LANGUAGES_get lang = None
  ∧ Belgium.button_xpath lang = lit "//input[@type='Submit' and @value='None']".
Proof.
  intros Hf Hd Hg.
  assert (Belgium.LANGUAGES_get lang = None) as E.
  { unfold Belgium.LANGUAGES_get, Belgium.LANGUAGES. simpl.
    repeat (case_decide; [by subst|]). done. }
  split; [done|]. unfold Belgium.button_xpath. by rewrite E.
Qed.

(** With the module as it is written, where the name [languages] of the
    loop header is not bound, [scrape_belgium_laws] never returns
    normally and never reaches a category: when the browser starts and
    the start page is requested, the run ends with [NameError]; no file is
    written, no record is appended, nothing is selected or flushed. *)
Theorem belgium_as_written_raises_name_error (headless : bool) (s : state) :
  let run := Belgium.scrape_belgium_laws Belgium.languages_of_module headless s in
  is_ok (fst run) = false
  ∧ fs (snd run) = fs s ∧ METADATA (snd run) = METADATA s
  ∧ milestones (trace (snd run)) = milestones (trace s)
  ∧ (∀ s1, (init headless ;;; navigate_to Belgium.START_URL ;;; wait_sec 5) s = (Ok tt, s1) →
       run = (Raise NameError, s1)).
Proof.
  intros run. subst run. unfold Belgium.languages_of_module.
  assert (steps R_store (Belgium.scrape_belgium_laws None headless)) as Hst
    by program_steps.
  assert (steps R_quiet (Belgium.scrape_belgium_laws None headless)) as Hq
    by program_steps.
  destruct (Hst s) as [Hfs Hmeta]. specialize (Hq s).
  split; [|split; [done|split; [done|split; [done|]]]].
  - unfold Belgium.scrape_belgium_laws. rewrite bind_run.
    destruct (init headless s) as [[[]|e] s1]; [|reflexivity].
    rewrite bind_run.
    destruct (navigate_to Belgium.START_URL s1) as [[[]|e] s2]; [|reflexivity].
    rewrite bind_run.
    destruct (wait_sec 5 s2) as [[[]|e] s3]; reflexivity.
  - intros s1. unfold Belgium.scrape_belgium_laws. rewrite !bind_run.
    destruct (init headless s) as [[[]|e] s2]; [|by intros [=]].
    rewrite !bind_run.
    destruct (navigate_to Belgium.START_URL s2) as [[[]|e] s3]; [|by intros [=]].
    rewrite !bind_run.
    destruct (wait_sec 5 s3) as [[[]|e] s4]; [|by intros [=]]. by intros [= <-].
Qed.

(** In the DRC script, when the lookup of the listing image yields [None]
    the function returns at once: nothing is clicked or flushed and the
    files and the ledger are as before. *)
Theorem drc_missing_listing_returns (headless : bool) (s s1 s2 : state) :
  (init headless ;;; navigate_to Congo.START_URL) s = (Ok tt, s1) →
  find_xpath_solo Congo.listing_xpath s1 = (Ok None, s2) →
  Congo.scrape_drc_laws headless s = (Ok tt, s2)
  ∧ fs s2 = fs s ∧ METADATA s2 = METADATA s
  ∧ milestones (trace s2) = milestones (trace s).
Proof.
  intros Hpre Hfind.
  assert (Congo.scrape_drc_laws headless s = (Ok tt, s2)) as E.
  { unfold Congo.scrape_drc_laws. rewrite bind_run in Hpre. rewrite bind_run.
    destruct (init headless s) as [[[]|e] s0]; [|done].
    rewrite bind_run, Hpre, bind_run, Hfind. done. }
  split; [done|].
  assert (∀ R, Frame R → R s s2) as Hfr.
  { intros R FR.
    assert (steps R (init headless ;;; navigate_to Congo.START_URL)) as Hst
      by program_steps.
    specialize (Hst s). rewrite Hpre in Hst.
    pose proof (steps_find_xpath_solo R Congo.listing_xpath s1) as Hst2.
    rewrite Hfind in Hst2. by eapply fr_trans. }
  destruct (Hfr R_store _) as [Hfs Hmeta]. split; [done|]. split; [done|].
  apply (Hfr R_quiet _).
Qed.

End AsWritten.

Lemma button_xpath_of_unknown_language_witness :
  Belgium.button_xpath (lit "english") = lit "//input[@type='Submit' and @value='None']".
Proof.
  apply (button_xpath_of_unknown_language (lit "english")); discriminate.
Defined.

Lemma drc_missing_listing_returns_witness :
  let st := {| Mock.site_docs := Mock.two_laws; Mock.site_listed := fun _ => 2%nat;
               Mock.site_not_found := [Congo.listing_xpath]; Mock.site_broken := [] |} in
  fst (Congo.scrape_drc_laws (U := Mock.latin1) (H := Mock.host) true (Mock.boot st))
  = Ok tt.
Proof.
  intros st.
  pose proof (drc_missing_listing_returns (U := Mock.latin1) (H := Mock.host)
                (D := Mock.driver st) true (Mock.boot st)
                (snd (bind (ChromeBot.init true)
                        (fun _ => ChromeBot.navigate_to Congo.START_URL) (Mock.boot st)))
                (snd (ChromeBot.find_xpath_solo Congo.listing_xpath
                        (snd (bind (ChromeBot.init true)
                                (fun _ => ChromeBot.navigate_to Congo.START_URL)
                                (Mock.boot st)))))
                ltac:(vm_compute; reflexivity) ltac:(vm_compute; reflexivity)) as [E _].
  by rewrite E.
Defined.

Lemma belgium_as_written_raises_name_error_witness :
  fst (Belgium.scrape_belgium_laws (U := Mock.latin1) (H := Mock.host)
         Belgium.languages_of_module true (Mock.boot Mock.site_two))
  = Raise NameError.
Proof.
  pose proof (belgium_as_written_raises_name_error (U := Mock.latin1) (H := Mock.host)
                true (Mock.boot Mock.site_two)) as (_ & _ & _ & _ & Hrun).
  rewrite (Hrun (snd (bind (ChromeBot.init true)
                        (fun _ => bind (ChromeBot.navigate_to Belgium.START_URL)
                                    (fun _ => ChromeBot.wait_sec 5))
                        (Mock.boot Mock.site_two)))
             ltac:(vm_compute; reflexivity)).
  reflexivity.
Defined.

(** ** Selections and flushes of the Belgian script *)

Section Flushes.
Context {U : Unicode} {D : Driver} {H : Host}.
Import ChromeBot.
Open Scope py_scope.

Lemma hoare_quiet {A} (I : state -> Prop) (Y : list milestone) (m : M A) :
  (∀ s, ms s = Y → I s) → steps R_quiet m →
  hoare I (fun s => ms s = Y) m (fun _ s => ms s = Y).
Proof.
  intros HI Hm s _ Hs. specialize (Hm s). unfold R_quiet in Hm. fold (ms s) in Hm.
  assert (ms (snd (m s)) = Y) as E by (unfold ms; congruence).
  split; [by apply HI|]. by intros a _.
Qed.

Lemma flush_milestones (s : state) :
  match Belgium.write_metadata_json s with
  | (Ok _, s') => ms s' = ms s ++ [Flushed]
  | (Raise _, s') => ms s' = ms s
  end.
Proof.
  rewrite belgium_flush_run. destruct (openable _); [|done].
  unfold ms, flushed. simpl. rewrite !milestones_snoc. simpl. by rewrite app_nil_r.
Qed.

Lemma click_select_milestones (l : str) (h : handle) (s : state) :
  ms (snd (click (SelectCategory l) (Some h) s)) = ms s ++ [Selected l].
Proof.
  cbv [click bind get_navs emit navigated call]. unfold ms. simpl.
  by rewrite milestones_snoc.
Qed.

Lemma crawl_and_flush_milestones (lang : str) (Y : list milestone) :
  hoare (fun s => ms s = Y ∨ ms s = Y ++ [Flushed]) (fun s => ms s = Y)
    (crawl_and_flush lang) (fun f s => f = Next ∧ ms s = Y ++ [Flushed]).
Proof.
  unfold crawl_and_flush.
  do 6 (eapply hoare_bind; [apply hoare_quiet; [by left | program_steps] | intros ?]).
  eapply hoare_bind.
  - intros s _ Hs. pose proof (flush_milestones s) as Hf.
    destruct (Belgium.write_metadata_json s) as [[[]|e] s']; simpl.
    + split; [right; congruence|]. intros x0 _.
      instantiate (1 := fun _ s' => ms s' = Y ++ [Flushed]). simpl. congruence.
    + split; [left; congruence | by intros x0].
  - intros _ s _ Hs. split; [by right|]. by intros x0 [= <-].
Qed.

Lemma scrape_language_milestones (lang : str) (s : state) :
  match Belgium.scrape_language lang s with
  | (Ok Next, s') => ms s' = ms s ++ [Selected lang; Flushed]
  | (Ok Return, s') => ms s' = ms s
  | (Raise _, s') => ms s' = ms s ∨ ms s' = ms s ++ [Selected lang]
                     ∨ ms s' = ms s ++ [Selected lang; Flushed]
  end.
Proof.
  unfold Belgium.scrape_language. rewrite bind_run.
  pose proof (steps_find_xpath_solo R_quiet (Belgium.button_xpath lang) s) as Hq.
  unfold R_quiet in Hq. fold (ms s) in Hq.
  destruct (find_xpath_solo (Belgium.button_xpath lang) s) as [[[h|]|e] s1];
    simpl in Hq.
  2: { exact Hq. }
  2: { left. exact Hq. }
  rewrite bind_run.
  pose proof (click_select_milestones lang h s1) as Hc.
  destruct (click (SelectCategory lang) (Some h) s1) as [[[]|e] s2]; simpl in Hc.
  - change (match crawl_and_flush lang s2 with
            | (Ok Next, s') => ms s' = ms s ++ [Selected lang; Flushed]
            | (Ok Return, s') => ms s' = ms s
            | (Raise _, s') => ms s' = ms s ∨ ms s' = ms s ++ [Selected lang]
                               ∨ ms s' = ms s ++ [Selected lang; Flushed]
            end).
    assert (ms s2 = ms s ++ [Selected lang]) as E2 by (unfold ms in *; congruence).
    destruct (crawl_and_flush_milestones lang (ms s ++ [Selected lang]) s2)
      as [Hi Hpost]; [by left | done |].
    rewrite <- app_assoc in Hi. simpl in Hi.
    destruct (crawl_and_flush lang s2) as [[f|e] s3]; simpl in *.
    + destruct (Hpost f eq_refl) as [-> Hms]. by rewrite <- app_assoc in Hms.
    + destruct Hi as [Hi|Hi]; auto.
  - right. left. unfold ms in *. congruence.
Qed.

Lemma loop_milestones (langs : list str) (s : state) :
  match for_in_return langs Belgium.scrape_language s with
  | (Ok Next, s') => ms s' = ms s ++ category_milestones langs
  | (Ok Return, s') =>
      ∃ done rest, langs = done ++ rest ∧ rest ≠ []
                   ∧ ms s' = ms s ++ category_milestones done
  | (Raise _, s') =>
      ∃ pre, ms s' = ms s ++ pre ∧ pre `prefix_of` category_milestones langs
  end.
Proof.
  revert s. induction langs as [|l langs IH]; intros s; simpl.
  - by rewrite app_nil_r.
  - rewrite bind_run. pose proof (scrape_language_milestones l s) as Hl.
    destruct (Belgium.scrape_language l s) as [[[|]|e] s1]; simpl.
    + specialize (IH s1).
      destruct (for_in_return langs Belgium.scrape_language s1) as [[[|]|e] s2].
      * rewrite IH, Hl. by rewrite <- !app_assoc.
      * destruct IH as (dn & rest & -> & Hne & E). exists (l :: dn), rest.
        split; [done|]. split; [done|]. rewrite E, Hl. simpl.
        by rewrite <- !app_assoc.
      * destruct IH as (pre & E & [k Hk]). exists ([Selected l; Flushed] ++ pre).
        split; [rewrite E, Hl; by rewrite <- !app_assoc|].
        exists k. rewrite Hk. by rewrite <- !app_assoc.
    + exists [], (l :: langs). split; [done|]. split; [done|].
      simpl. by rewrite app_nil_r.
    + destruct Hl as [Hl|[Hl|Hl]].
      * exists []. rewrite app_nil_r. split; [done|]. apply prefix_nil.
      * exists [Selected l]. split; [done|].
        by exists (Flushed :: category_milestones langs).
      * exists [Selected l; Flushed]. split; [done|].
        by exists (category_milestones langs).
Qed.

Lemma quiet_then {A B} (m : M A) (k : A -> M B)
    (P : result B * state -> Prop) (s : state) :
  steps R_quiet m →
  (∀ e s', ms s' = ms s → P (Raise e, s')) →
  (∀ a s', ms s' = ms s → P (k a s')) →
  P (bind m k s).
Proof.
  intros Hm He Hk. rewrite bind_run. specialize (Hm s). unfold R_quiet in Hm.
  destruct (m s) as [[a|e] s1]; simpl in *; [by apply Hk | by apply He].
Qed.

(** In [scrape_belgium_laws], when the
    loop header has a list of categories to iterate over, a run that returns
    has selected an initial part of that list, each category once and in
    order, and has dumped the ledger exactly once after each selection, before
    the next one; it has selected no category without dumping the ledger after
    it.  A run that ends in an exception has done the same except that the
    last selected category may lack its dump. *)
Theorem belgium_flushes_after_every_category
    (langs : list str) (headless : bool) (s : state) :
  match Belgium.scrape_belgium_laws (Some langs) headless s with
  | (Ok _, s') =>
      ∃ done rest, langs = done ++ rest ∧ ms s' = ms s ++ category_milestones done
  | (Raise _, s') =>
      ∃ pre, ms s' = ms s ++ pre ∧ pre `prefix_of` category_milestones langs
  end.
Proof.
  unfold Belgium.scrape_belgium_laws.
  set (P := fun s0 (r : result unit * state) =>
    match r with
    | (Ok _, s') =>
        ∃ done rest, langs = done ++ rest ∧ ms s' = ms s0 ++ category_milestones done
    | (Raise _, s') =>
        ∃ pre, ms s' = ms s0 ++ pre ∧ pre `prefix_of` category_milestones langs
    end).
  assert (∀ e s', ms s' = ms s → P s (Raise e, s')) as Hraise.
  { intros e s' E. exists []. rewrite app_nil_r. split; [done|]. apply prefix_nil. }
  change (P s ((init headless;;; navigate_to Belgium.START_URL;;; wait_sec 5;;;
          (f <- for_in_return langs Belgium.scrape_language;;
           match f with Return => ret tt | Next => print MsgFinished end)) s)).
  apply (quiet_then _ _ (P s)); [apply steps_init; tc_solve | done |].
  intros [] s1 E1.
  apply (quiet_then _ _ (P s));
    [apply steps_navigate_to; tc_solve | intros; apply Hraise; congruence |].
  intros [] s2 E2.
  apply (quiet_then _ _ (P s));
    [apply steps_wait_sec; tc_solve | intros; apply Hraise; congruence |].
  intros [] s0 E0.
  assert (ms s0 = ms s) as Hp by congruence. unfold P. rewrite <- Hp.
  clear Hraise P E1 E2 E0 s1 s2.
  rewrite bind_run. pose proof (loop_milestones langs s0) as Hl.
  destruct (for_in_return langs Belgium.scrape_language s0) as [[[|]|e] s1].
  - exists langs, []. rewrite app_nil_r. split; [done|].
    unfold print, ms in *. simpl. rewrite milestones_snoc. simpl.
    rewrite app_nil_r. congruence.
  - destruct Hl as (dn & rest & -> & _ & E). exists dn, rest. split; [done|].
    simpl. congruence.
  - destruct Hl as (pre & E & Hpf). exists pre. split; [congruence|done].
Qed.

End Flushes.

(** ** A second run against the same site *)

Section Oblivious.
Context {D : Driver} {H : Host}.
Import ChromeBot.
Open Scope py_scope.

Lemma same_browser_refl (a : state) : same_browser a a.
Proof. by split. Qed.

Lemma same_browser_sym (a b : state) : same_browser a b → same_browser b a.
Proof. intros [E1 E2]. by split. Qed.

Lemma same_browser_trans (a b c : state) :
  same_browser a b → same_browser b c → same_browser a c.
Proof. intros [E1 E2] [E3 E4]. split; congruence. Qed.

Lemma obl_ret {A} (x : A) : oblivious (ret x).
Proof. by intros a b Hab. Qed.

Lemma obl_raise {A} (e : exn) : oblivious (raise (A := A) e).
Proof. by intros a b Hab. Qed.

Lemma obl_bind {A B} (m : M A) (k : A -> M B) :
  oblivious m → (∀ x, oblivious (k x)) → oblivious (bind m k).
Proof.
  intros Hm Hk a b Hab. rewrite !bind_run. destruct (Hm a b Hab) as [Hr Hs].
  destruct (m a) as [[x|e] a1], (m b) as [[y|e'] b1]; simpl in *; try done.
  - injection Hr as ->. by apply Hk.
  - by injection Hr as ->.
Qed.

Lemma obl_try_except {A} (m h : M A) :
  oblivious m → oblivious h → oblivious (try_except m h).
Proof.
  intros Hm Hh a b Hab. unfold try_except. destruct (Hm a b Hab) as [Hr Hs].
  destruct (m a) as [[x|e] a1], (m b) as [[y|e'] b1]; simpl in *; try done.
  by apply Hh.
Qed.

Lemma obl_try_except_index {A} (m h : M A) :
  oblivious m → oblivious h → oblivious (try_except_index m h).
Proof.
  intros Hm Hh a b Hab. unfold try_except_index. destruct (Hm a b Hab) as [Hr Hs].
  destruct (m a) as [[x|e] a1], (m b) as [[y|e'] b1]; simpl in *; try done.
  injection Hr as ->. destruct e'; try done. by apply Hh.
Qed.

Lemma obl_call {A} (f : world -> result A * world) : oblivious (call f).
Proof. intros a b [Hw Hn]. unfold call, same_browser. simpl. by rewrite Hw, Hn. Qed.

Lemma obl_emit (e : event) : oblivious (emit e).
Proof. by intros a b Hab. Qed.

Lemma obl_print (m : message) : oblivious (print m).
Proof. by intros a b Hab. Qed.

Lemma obl_navigated : oblivious navigated.
Proof. intros a b [Hw Hn]. unfold navigated, same_browser. simpl. by rewrite Hw, Hn. Qed.

Lemma obl_get_navs : oblivious get_navs.
Proof. intros a b [Hw Hn]. unfold get_navs. simpl. by rewrite Hn. Qed.

Lemma obl_soup (html : str) : oblivious (soup html).
Proof. by intros a b Hab. Qed.

Lemma obl_py_len {A} (v : option (list A)) : oblivious (py_len v).
Proof. destruct v; [apply obl_ret | apply obl_raise]. Qed.

Lemma obl_py_index {A} (v : option (list A)) (i : nat) : oblivious (py_index v i).
Proof.
  destruct v as [l|]; simpl; [|apply obl_raise].
  destruct (l !! i); [apply obl_ret | apply obl_raise].
Qed.

Lemma obl_text_of (e : option handle) : oblivious (text_of e).
Proof. destruct e; [apply obl_call | apply obl_raise]. Qed.

Lemma obl_for_in {A} (xs : list A) (body : A -> M unit) :
  (∀ x, oblivious (body x)) → oblivious (for_in xs body).
Proof.
  intros Hb. induction xs as [|x xs IH]; simpl.
  - apply obl_ret.
  - apply obl_bind; [apply Hb | by intros _].
Qed.

Lemma obl_for_in_var {A V} (xs : list A) (body : A -> V -> M V) (v : V) :
  (∀ x v, oblivious (body x v)) → oblivious (for_in_var xs body v).
Proof.
  intros Hb. revert v. induction xs as [|x xs IH]; intros v; simpl.
  - apply obl_ret.
  - apply obl_bind; [apply Hb | apply IH].
Qed.

End Oblivious.

Ltac obl_step :=
  lazymatch goal with
  | |- oblivious (ret _) => apply obl_ret
  | |- oblivious (raise _) => apply obl_raise
  | |- oblivious (bind _ _) => apply obl_bind; [|intros ?]
  | |- oblivious (try_except _ _) => apply obl_try_except
  | |- oblivious (try_except_index _ _) => apply obl_try_except_index
  | |- oblivious (call _) => apply obl_call
  | |- oblivious (emit _) => apply obl_emit
  | |- oblivious (print _) => apply obl_print
  | |- oblivious navigated => apply obl_navigated
  | |- oblivious get_navs => apply obl_get_navs
  | |- oblivious (soup _) => apply obl_soup
  | |- oblivious (py_len _) => apply obl_py_len
  | |- oblivious (py_index _ _) => apply obl_py_index
  | |- oblivious (text_of _) => apply obl_text_of
  | |- oblivious (match ?x with _ => _ end) => destruct x
  end.

Ltac obl_tac := repeat obl_step.

Section ObliviousBot.
Context {U : Unicode} {D : Driver} {H : Host}.
Import ChromeBot.
Open Scope py_scope.

Lemma obl_click (r : role) (e : option handle) : oblivious (click r e).
Proof. unfold click. obl_tac. Qed.

Lemma obl_init (headless : bool) : oblivious (init headless).
Proof. unfold init. obl_tac. Qed.

Lemma obl_navigate_to (url : str) : oblivious (navigate_to url).
Proof. unfold navigate_to. obl_tac. Qed.

Lemma obl_find_xpath (xpath : str) : oblivious (find_xpath xpath).
Proof. unfold find_xpath. obl_tac. Qed.

Lemma obl_find_xpath_solo (xpath : str) : oblivious (find_xpath_solo xpath).
Proof. unfold find_xpath_solo, located. obl_tac. Qed.

Lemma obl_get_html : oblivious get_html.
Proof. unfold get_html. obl_tac. Qed.

Lemma obl_get_url : oblivious get_url.
Proof. unfold get_url. obl_tac. Qed.

Lemma obl_switch_to_default : oblivious switch_to_default.
Proof. unfold switch_to_default. obl_tac. Qed.

Lemma obl_switch_to_frame (frame : option handle) : oblivious (switch_to_frame frame).
Proof. unfold switch_to_frame. obl_tac. Qed.

Lemma obl_wait_sec (t : N) : oblivious (wait_sec t).
Proof. unfold wait_sec. obl_tac. Qed.

Lemma obl_belgium_open_law (i : nat) (links : option (list handle)) :
  oblivious (Belgium.open_law i links).
Proof.
  unfold Belgium.open_law.
  repeat first [obl_step | apply obl_click | apply obl_find_xpath_solo
               | apply obl_switch_to_frame | apply obl_get_html].
Qed.

Lemma obl_belgium_back_to_listing : oblivious Belgium.back_to_listing.
Proof.
  unfold Belgium.back_to_listing.
  repeat first [obl_step | apply obl_click | apply obl_find_xpath_solo
               | apply obl_find_xpath | apply obl_switch_to_frame
               | apply obl_switch_to_default | apply obl_wait_sec].
Qed.

Lemma obl_congo_open_law (links : option (list handle)) (i : nat) :
  oblivious (Congo.open_law links i).
Proof.
  unfold Congo.open_law.
  repeat first [obl_step | apply obl_click | apply obl_get_url | apply obl_get_html].
Qed.

End ObliviousBot.

Section Again.
Context {U : Unicode} {D : Driver} {H : Host}.
Import ChromeBot.
Open Scope py_scope.

Lemma dumps_snoc (tr : list event) (e : event) :
  dumps (tr ++ [e])
  = dumps tr ++ match e with EvFlush l => [l] | _ => [] end.
Proof. unfold dumps. rewrite omap_app. simpl. by destruct e. Qed.

#[export] Instance R_nodump_frame : Frame R_nodump.
Proof.
  split; unfold R_nodump; simpl; try done.
  - intros s1 s2 s3 E1 E2. congruence.
  - intros s m. rewrite dumps_snoc. apply app_nil_r.
Qed.

Lemma click_ok_nodump (r : role) : click_ok R_nodump r.
Proof. intros s b. unfold R_nodump. simpl. rewrite dumps_snoc. apply app_nil_r. Qed.

Lemma store_outcome_nodump (p : str) (r : record) (text : str) (s : state) :
  R_nodump s (snd (store_outcome p r text s)).
Proof.
  unfold store_outcome, R_nodump.
  destruct (bool_decide _), (openable p), (encodable text); simpl; try done.
  all: rewrite ?dumps_snoc; simpl; by rewrite ?app_nil_r.
Qed.

Lemma redump_files (mp : str) (l : list record) (n : nat) (a b : state) :
  fs b = redump mp l n (fs a) → R_files a b.
Proof.
  intros E p Hp. rewrite E. destruct n as [|n]; simpl; [done|].
  destruct (decide (mp = p)) as [->|Hne];
    [rewrite lookup_insert_eq; eauto | by rewrite lookup_insert_ne].
Qed.

Lemma redump_redump (mp : str) (l : list record) (n k : nat) (f : gmap str file) :
  redump mp l k (redump mp l n f) = redump mp l (n + k) f.
Proof.
  destruct n as [|n], k as [|k]; simpl; try done.
  by rewrite insert_insert_eq.
Qed.

Lemma R_files_same (a b : state) : fs b = fs a → R_files a b.
Proof. intros E p Hp. by rewrite E. Qed.

Lemma R_files_trans (a b c : state) : R_files a b → R_files b c → R_files a c.
Proof. intros Hab Hbc p Hp. by apply Hbc, Hab. Qed.

Section Rules.
Context (strict : bool) (mp : str).

Lemma again_obl {A} (m : M A) :
  oblivious m → steps R_store m → steps R_nodump m → again strict mp m.
Proof.
  intros Ho Hs Hn a b Hab _ _. destruct (Ho a b Hab) as [Hr Hb].
  destruct (Hs b) as [Hfs Hmeta].
  split; [done|]. split; [done|]. split; [done|].
  exists 0%nat. simpl. rewrite app_nil_r. split; [apply Hn | done].
Qed.

Lemma again_bind {A B} (m : M A) (k : A -> M B) :
  again strict mp m → (∀ x, again strict mp (k x)) → (∀ x, steps R_files (k x)) →
  again strict mp (bind m k).
Proof.
  intros Hm Hk Hf a b Hab HF Hok.
  pose proof (steps_after_bind R_files m k a Hf) as Hmid.
  destruct (Hm a b Hab) as (Hr & Hs & Hmeta & n & Hd & Hfs).
  { by eapply R_files_trans. }
  { intros E. specialize (Hok E). rewrite bind_run in Hok.
    by destruct (m a) as [[x|e] a1]. }
  rewrite !bind_run in *.
  destruct (m a) as [[x|e] a1], (m b) as [[y|e'] b1]; simpl in *; try done.
  2: { injection Hr as ->. split; [done|]. split; [done|]. split; [done|]. eauto. }
  injection Hr as ->.
  destruct (Hk x a1 b1 Hs) as (Hr' & Hs' & Hmeta' & n' & Hd' & Hfs'); [|done|].
  { eapply R_files_trans; [exact HF|]. by eapply redump_files. }
  split; [done|]. split; [done|]. split; [congruence|].
  exists (n + n')%nat. rewrite Hd', Hd, Hfs', Hfs, Hmeta.
  rewrite replicate_add, app_assoc. split; [done|]. apply redump_redump.
Qed.

Lemma again_ret {A} (x : A) : again strict mp (ret x).
Proof. apply again_obl; [apply obl_ret | steps_tac | steps_tac]. Qed.

Lemma again_for_in {A} (xs : list A) (body : A -> M unit) :
  (∀ x, again strict mp (body x)) → (∀ x, steps R_files (body x)) →
  again strict mp (for_in xs body).
Proof.
  intros Hb Hf. induction xs as [|x xs IH]; simpl.
  - apply again_ret.
  - apply again_bind; [apply Hb | by intros _ |].
    intros _. steps_tac.
Qed.

Lemma again_for_in_var {A V} (xs : list A) (body : A -> V -> M V) (v : V) :
  (∀ x v, again strict mp (body x v)) → (∀ x v, steps R_files (body x v)) →
  again strict mp (for_in_var xs body v).
Proof.
  intros Hb Hf. revert v. induction xs as [|x xs IH]; intros v; simpl.
  - apply again_ret.
  - apply again_bind; [apply Hb | apply IH |].
    intros v'. steps_tac.
Qed.

Lemma again_for_in_return {A} (xs : list A) (body : A -> M flow) :
  (∀ x, again strict mp (body x)) → (∀ x, steps R_files (body x)) →
  again strict mp (for_in_return xs body).
Proof.
  intros Hb Hf. induction xs as [|x xs IH]; simpl.
  - apply again_ret.
  - apply again_bind; [apply Hb | |].
    + intros [|]; [apply IH | apply again_ret].
    + intros [|]; steps_tac.
Qed.

End Rules.
End Again.

#[export] Hint Resolve click_ok_nodump : steps.

Section AgainLeaves.
Context {U : Unicode} {D : Driver} {H : Host}.
Import ChromeBot.
Open Scope py_scope.

Lemma store_outcome_browser (p : str) (r : record) (text : str) (s : state) :
  same_browser s (snd (store_outcome p r text s)).
Proof.
  unfold store_outcome, same_browser.
  by destruct (bool_decide _), (openable p), (encodable text).
Qed.

(** A destination that the first run has left behind is not written
    again; one that it could not open cannot be opened now. *)
Lemma store_outcome_again (p : str) (r : record) (text : str) (a b : state) :
  R_files (snd (store_outcome p r text a)) b →
  R_store b (snd (store_outcome p r text b))
  ∧ (is_ok (fst (store_outcome p r text a)) = true →
     fst (store_outcome p r text b) = Ok tt).
Proof.
  unfold store_outcome. intros HF.
  destruct (bool_decide (is_Some (fs b !! p))) eqn:Eb; [done|].
  apply bool_decide_eq_false in Eb.
  destruct (bool_decide (is_Some (fs a !! p))) eqn:Ea.
  { apply bool_decide_eq_true in Ea. destruct Eb. by apply HF. }
  destruct (openable p); [|done].
  destruct Eb. apply HF.
  destruct (encodable text); simpl; rewrite lookup_insert_eq; eauto.
Qed.

Lemma again_belgium_store (mp lang law_title text : str) :
  again true mp (Belgium.store_law lang law_title text).
Proof.
  intros a b Hab HF Hok. specialize (Hok eq_refl).
  rewrite !belgium_store_law_run in *.
  destruct (store_outcome_again _ _ _ _ _ HF) as [[Hfs Hmeta] Hr].
  pose proof (store_outcome_browser
    (Belgium.destination_path law_title Belgium.txt lang)
    (belgium_record law_title lang) text) as Hsb.
  split.
  { rewrite (Hr Hok). by destruct (store_outcome _ _ _ a) as [[[]|e] a1]. }
  split.
  { eapply same_browser_trans; [apply same_browser_sym, Hsb|].
    eapply same_browser_trans; [exact Hab | apply Hsb]. }
  split; [done|]. exists 0%nat. simpl. rewrite app_nil_r.
  split; [apply store_outcome_nodump | done].
Qed.

Lemma try_except_print_state (m : M unit) (msg : message) (s : state) :
  let s1 := snd (m s) in
  let s2 := snd (try_except m (print msg) s) in
  fst (try_except m (print msg) s) = Ok tt
  ∧ same_browser s1 s2 ∧ fs s2 = fs s1 ∧ METADATA s2 = METADATA s1
  ∧ R_nodump s1 s2.
Proof.
  unfold try_except, R_nodump. destruct (m s) as [[[]|e] s1]; simpl; [done|].
  rewrite dumps_snoc. by rewrite app_nil_r.
Qed.

Lemma congo_visit_again (lang : str) (links : option (list handle)) (i : nat)
    (a b : state) :
  same_browser a b →
  R_files (snd (Congo.visit_law lang links i a)) b →
  same_browser (snd (Congo.visit_law lang links i a))
               (snd (Congo.visit_law lang links i b))
  ∧ R_store b (snd (Congo.visit_law lang links i b))
  ∧ R_nodump b (snd (Congo.visit_law lang links i b)).
Proof.
  intros Hab.
  assert (steps R_nodump (Congo.open_law links i)) as Hnd by program_steps.
  specialize (Hnd b).
  unfold Congo.visit_law. rewrite !bind_run.
  destruct (obl_congo_open_law links i a b Hab) as [Hr Hs].
  destruct (congo_open_law_store links i b) as [Hfs Hmeta].
  destruct (Congo.open_law links i a) as [[pa|ea] a1],
    (Congo.open_law links i b) as [[pb|eb] b1]; simpl in *; try done.
  injection Hr as ->. rewrite !congo_store_law_run.
  set (t := EvPrint _). intros HF.
  lazymatch type of HF with
  | R_files (snd (store_outcome ?p ?r ?x _)) _ =>
      destruct (store_outcome_again p r x (with_event t a1) (with_event t b1))
        as [[Hfs' Hmeta'] _];
      [|pose proof (store_outcome_nodump p r x (with_event t b1)) as Hnd']
  end.
  { intros p Hp. simpl. rewrite Hfs. by apply HF. }
  split; [|split].
  - eapply same_browser_trans; [apply same_browser_sym, store_outcome_browser|].
    eapply same_browser_trans; [|apply store_outcome_browser]. exact Hs.
  - split; simpl in *; congruence.
  - unfold R_nodump in *. rewrite Hnd'. simpl. rewrite dumps_snoc. simpl.
    by rewrite app_nil_r.
Qed.

Lemma again_congo_try_visit (strict : bool) (mp lang : str)
    (links : option (list handle)) (i : nat) :
  again strict mp (Congo.try_visit_law lang links i).
Proof.
  intros a b Hab HF _. unfold Congo.try_visit_law in *.
  destruct (try_except_print_state (Congo.visit_law lang links i) MsgLinkBroken a)
    as (Ra & Sa & Fa & Ma & _).
  destruct (try_except_print_state (Congo.visit_law lang links i) MsgLinkBroken b)
    as (Rb & Sb & Fb & Mb & Nb).
  destruct (congo_visit_again lang links i a b Hab) as (Hs & [Hfs Hmeta] & Hnd).
  { intros p Hp. apply HF. by rewrite Fa. }
  split; [congruence|]. split.
  { eapply same_browser_trans; [apply same_browser_sym, Sa|].
    eapply same_browser_trans; [exact Hs | exact Sb]. }
  split; [congruence|]. exists 0%nat. simpl. rewrite app_nil_r.
  unfold R_nodump in *. split; congruence.
Qed.

Lemma flushed_again (strict : bool) (mp : str) :
  again strict mp
    (fun s => if openable mp then (Ok tt, flushed mp s) else (Raise OSError, s)).
Proof.
  intros a b Hab _ _. destruct (openable mp); simpl.
  - split; [done|]. split; [done|]. split; [done|]. exists 1%nat. simpl.
    rewrite !dumps_snoc. simpl. by rewrite app_nil_r.
  - split; [done|]. split; [done|]. split; [done|]. exists 0%nat. simpl.
    by rewrite app_nil_r.
Qed.

Lemma again_belgium_flush (strict : bool) :
  again strict (os_path_join here Belgium.METADATA_PATH) Belgium.write_metadata_json.
Proof.
  intros a b. rewrite !belgium_flush_run. apply (flushed_again strict _ a b).
Qed.

Lemma again_congo_flush (strict : bool) :
  again strict (os_path_join here Congo.METADATA_PATH) Congo.write_metadata_json.
Proof.
  intros a b. rewrite !congo_flush_run. apply (flushed_again strict _ a b).
Qed.

End AgainLeaves.

Ltac obl_auto :=
  repeat first
    [ obl_step | apply obl_click | apply obl_init | apply obl_navigate_to
    | apply obl_find_xpath | apply obl_find_xpath_solo | apply obl_get_html
    | apply obl_get_url | apply obl_switch_to_default | apply obl_switch_to_frame
    | apply obl_wait_sec | apply obl_belgium_open_law
    | apply obl_belgium_back_to_listing | apply obl_congo_open_law ].

Ltac again_step :=
  lazymatch goal with
  | |- again _ _ (ret _) => apply again_ret
  | |- again _ _ (bind _ _) =>
      apply again_bind; [|intros ?|intros ?; program_steps]
  | |- again _ _ (for_in _ _) =>
      apply again_for_in; [intros ?|intros ?; program_steps]
  | |- again _ _ (for_in_var _ _ _) =>
      apply again_for_in_var; [intros ? ?|intros ? ?; program_steps]
  | |- again _ _ (for_in_return _ _) =>
      apply again_for_in_return; [intros ?|intros ?; program_steps]
  | |- again _ _ (Congo.try_visit_law _ _ _) => apply again_congo_try_visit
  | |- again _ _ (Belgium.store_law _ _ _) => apply again_belgium_store
  | |- again _ _ Belgium.write_metadata_json => apply again_belgium_flush
  | |- again _ _ Congo.write_metadata_json => apply again_congo_flush
  | |- again _ _ (match ?x with _ => _ end) => destruct x
  | |- again _ _ _ =>
      apply again_obl; [solve [obl_auto] | solve [program_steps] | solve [program_steps]]
  end.

Section SecondRun.
Context {U : Unicode} {D : Driver} {H : Host}.
Import ChromeBot.
Open Scope py_scope.

Lemma again_scrape_drc_laws (strict : bool) (headless : bool) :
  again strict (os_path_join here Congo.METADATA_PATH) (Congo.scrape_drc_laws headless).
Proof. unfold Congo.scrape_drc_laws. repeat again_step. Qed.

Lemma again_belgium_visit_law (lang : str) (i : nat) (links : option (list handle)) :
  again true (os_path_join here Belgium.METADATA_PATH) (Belgium.visit_law lang i links).
Proof. unfold Belgium.visit_law. repeat again_step. Qed.

Lemma again_scrape_belgium_laws (langs : list str) (headless : bool) :
  again true (os_path_join here Belgium.METADATA_PATH)
    (Belgium.scrape_belgium_laws (Some langs) headless).
Proof.
  unfold Belgium.scrape_belgium_laws, Belgium.scrape_language, Belgium.visit_law.
  repeat again_step.
Qed.

(** The DRC script run a second time, over what the first run left: when
    the browser of the second process starts as that of the first did and
    answers alike, and every file that the first run left is still there,
    the second run ends as the first did (it returns, or raises the same
    exception), appends no record to its ledger, and changes no file except
    by dumping that unchanged ledger to the metadata file: no law is
    downloaded twice.  Whatever the first run raised and skipped, this
    holds. *)
Theorem drc_second_run_downloads_nothing (headless : bool) (s s2 : state) :
  same_browser s s2 →
  R_files (snd (Congo.scrape_drc_laws headless s)) s2 →
  let run1 := Congo.scrape_drc_laws headless s in
  let run2 := Congo.scrape_drc_laws headless s2 in
  fst run2 = fst run1
  ∧ METADATA (snd run2) = METADATA s2
  ∧ ∃ n, dumps (trace (snd run2)) = dumps (trace s2) ++ replicate n (METADATA s2)
         ∧ fs (snd run2)
           = redump (os_path_join here Congo.METADATA_PATH) (METADATA s2) n (fs s2).
Proof.
  intros Hb HF run1 run2.
  destruct (again_scrape_drc_laws false headless s s2 Hb HF) as (Hr & _ & Hm & Hd);
    done.
Qed.


End SecondRun.

(** A second process on the directory that a first run on the test site
    has filled: the ledger stays empty and the metadata file is replaced by
    the dump of this empty ledger. *)
Lemma drc_second_run_downloads_nothing_witness :
  let s := Mock.boot Mock.site_two in
  let s2 := Mock.boot_on Mock.site_two
              (fs (snd (Congo.scrape_drc_laws (U := Mock.latin1) (H := Mock.host)
                          true s))) in
  fst (Congo.scrape_drc_laws (U := Mock.latin1) (H := Mock.host) true s2)
  = fst (Congo.scrape_drc_laws (U := Mock.latin1) (H := Mock.host) true s)
  ∧ METADATA (snd (Congo.scrape_drc_laws (U := Mock.latin1) (H := Mock.host) true s2))
    = [].
Proof.
  intros s s2.
  destruct (drc_second_run_downloads_nothing (U := Mock.latin1) (H := Mock.host)
              true s s2 ltac:(vm_compute; done)
              (R_files_same (D := Mock.driver Mock.site_two)
                 (snd (Congo.scrape_drc_laws (U := Mock.latin1) (H := Mock.host) true s))
                 s2 ltac:(vm_compute; reflexivity)))
    as (E1 & E2 & _).
  split; [exact E1 | exact E2].
Defined.

